(** * Execution-environment resolution and sandboxed process preparation

    A shallow embedding of the parts of
    [src/python/pants/core/util_rules/adhoc_process_support.py] and
    [src/python/pants/core/goals/run.py] that decide how a runnable is
    chosen, how runnable dependencies are turned into wrapper scripts and
    merged environments, and how an adhoc process is prepared, executed and
    its outputs relocated.

    Python [str] and [bytes] values are modelled by [string] (a sequence of 8-bit
    characters), tuples and iteration order by lists, [dict]/[FrozenDict]
    used as a map by [gmap], an exception by the [Raise] branch of
    [result], and every request answered by the rule engine ([Get],
    [MultiGet]) by a field of the record [Engine]. *)

From Stdlib Require Import Ascii String ZArith.
From stdpp Require Import gmap strings list fin_maps.

(** ** Python strings *)

Module Py.

(** The characters that cannot be written inside a string literal here. *)
Definition dquote : ascii := "034"%char.
Definition newline : ascii := "010"%char.
Definition tab : ascii := "009"%char.
Definition space : ascii := " "%char.

Definition nl : string := String newline EmptyString.
Definition dq : string := String dquote EmptyString.

(** [s.startswith(p)] *)
Fixpoint startswith (s p : string) {struct p} : bool :=
  match p with
  | EmptyString => true
  | String c p' =>
      match s with
      | EmptyString => false
      | String a s' => Ascii.eqb a c && startswith s' p'
      end
  end.

(** [s.endswith(p)] for a one-character [p] *)
Fixpoint endswith_char (s : string) (c : ascii) : bool :=
  match s with
  | EmptyString => false
  | String a EmptyString => Ascii.eqb a c
  | String _ rest => endswith_char rest c
  end.

(** [s[n:]] *)
Fixpoint slice_from (n : nat) (s : string) : string :=
  match n, s with
  | O, _ => s
  | S n', String _ rest => slice_from n' rest
  | S _, EmptyString => EmptyString
  end.

(** [sep.join(parts)] *)
Definition join (sep : string) (parts : list string) : string :=
  String.concat sep parts.

(** [s.split(sep)] for a one-character [sep]: the pieces between the
    separators, the last one included even when it is empty. *)
Fixpoint split_char (sep : ascii) (s : string) : list string :=
  match s with
  | EmptyString => [EmptyString]
  | String c rest =>
      if Ascii.eqb c sep then EmptyString :: split_char sep rest
      else match split_char sep rest with
           | [] => [String c EmptyString]
           | piece :: pieces => String c piece :: pieces
           end
  end.

(** Truthiness of a string: [bool(s)] *)
Definition truthy (s : string) : bool :=
  match s with EmptyString => false | _ => true end.

(** A continuation byte of UTF-8, [0x80] to [0xBF]. *)
Definition is_continuation (c : ascii) : bool :=
  let n := nat_of_ascii c in (128 <=? n) && (n <=? 191).

(** The second byte that may follow the lead byte [lead] of a sequence of
    three or four bytes: no overlong form ([0xE0], [0xF0]), no surrogate
    ([0xED]) and nothing above U+10FFFF ([0xF4]). *)
Definition second_byte_ok (lead : nat) (c : ascii) : bool :=
  let n := nat_of_ascii c in
  if lead =? 224 then (160 <=? n) && (n <=? 191)
  else if lead =? 237 then (128 <=? n) && (n <=? 159)
  else if lead =? 240 then (144 <=? n) && (n <=? 191)
  else if lead =? 244 then (128 <=? n) && (n <=? 143)
  else is_continuation c.

(** The bytes [b] are well-formed UTF-8: [b.decode()], which decodes UTF-8
    with strict error handling, raises [UnicodeDecodeError] exactly when
    they are not. *)
Fixpoint utf8_valid (b : string) : bool :=
  match b with
  | EmptyString => true
  | String c0 r0 =>
      let lead := nat_of_ascii c0 in
      if lead <=? 127 then utf8_valid r0
      else
        match r0 with
        | EmptyString => false
        | String c1 r1 =>
            if (194 <=? lead) && (lead <=? 223) then
              is_continuation c1 && utf8_valid r1
            else
              match r1 with
              | EmptyString => false
              | String c2 r2 =>
                  if (224 <=? lead) && (lead <=? 239) then
                    second_byte_ok lead c1 && is_continuation c2 && utf8_valid r2
                  else
                    match r2 with
                    | EmptyString => false
                    | String c3 r3 =>
                        if (240 <=? lead) && (lead <=? 244) then
                          second_byte_ok lead c1 && is_continuation c2
                          && is_continuation c3 && utf8_valid r3
                        else false
                    end
              end
        end
  end.

End Py.

(** ** [shlex.quote] *)

Module Shlex.

(** The characters matched by [[\w@%+=:,./-]] under [re.ASCII]. *)
Definition is_safe (c : ascii) : bool :=
  let n := nat_of_ascii c in
  ((48 <=? n) && (n <=? 57))
  || ((65 <=? n) && (n <=? 90))
  || ((97 <=? n) && (n <=? 122))
  || (n =? 95)
  || existsb (Ascii.eqb c)
       ["@"; "%"; "+"; "="; ":"; ","; "."; "/"; "-"]%char.

Fixpoint find_unsafe (s : string) : bool :=
  match s with
  | EmptyString => false
  | String c rest => negb (is_safe c) || find_unsafe rest
  end.

(** [s.replace("'", "'\"'\"'")] *)
Fixpoint escape_single_quotes (s : string) : string :=
  match s with
  | EmptyString => EmptyString
  | String c rest =>
      if Ascii.eqb c "'"%char
      then "'" +:+ Py.dq +:+ "'" +:+ Py.dq +:+ "'" +:+ escape_single_quotes rest
      else String c (escape_single_quotes rest)
  end.

Definition quote (s : string) : string :=
  match s with
  | EmptyString => "''"
  | _ => if find_unsafe s then "'" +:+ escape_single_quotes s +:+ "'" else s
  end.

End Shlex.

(** ** [os.path.join] (posixpath) for two components *)

Module OsPath.

Definition join (a b : string) : string :=
  if Py.startswith b "/" then b
  else if negb (Py.truthy a) || Py.endswith_char a "/"%char then a +:+ b
  else a +:+ "/" +:+ b.

End OsPath.

(** ** [textwrap.dedent] *)

Module Textwrap.

Definition is_blank_char (c : ascii) : bool :=
  Ascii.eqb c Py.space || Ascii.eqb c Py.tab.

Fixpoint all_blank (s : string) : bool :=
  match s with
  | EmptyString => true
  | String c rest => is_blank_char c && all_blank rest
  end.

(** [_whitespace_only_re.sub('', text)], line by line: a line made of
    spaces and tabs only becomes the empty line. *)
Definition normalize_line (l : string) : string :=
  if all_blank l then EmptyString else l.

(** The group captured by [_leading_whitespace_re] on a line. *)
Fixpoint leading_whitespace (l : string) : string :=
  match l with
  | EmptyString => EmptyString
  | String c rest =>
      if is_blank_char c then String c (leading_whitespace rest)
      else EmptyString
  end.

Fixpoint common_prefix (a b : string) : string :=
  match a, b with
  | String x a', String y b' =>
      if Ascii.eqb x y then String x (common_prefix a' b') else EmptyString
  | _, _ => EmptyString
  end.

(** The margin: the longest whitespace prefix shared by every line that
    has a character other than space and tab. *)
Fixpoint margin_of (margin : option string) (indents : list string) : option string :=
  match indents with
  | [] => margin
  | indent :: rest =>
      match margin with
      | None => margin_of (Some indent) rest
      | Some m => margin_of (Some (common_prefix m indent)) rest
      end
  end.

(** [re.sub(r'(?m)^' + margin, '', text)], line by line. *)
Definition strip_margin (margin l : string) : string :=
  if Py.startswith l margin then Py.slice_from (String.length margin) l else l.

Definition dedent (text : string) : string :=
  let lines := map normalize_line (Py.split_char Py.newline text) in
  let indents := map leading_whitespace (filter (λ l, Py.truthy l = true) lines) in
  match margin_of None indents with
  | Some m => Py.join Py.nl (map (strip_margin m) lines)
  | None => Py.join Py.nl lines
  end.

End Textwrap.

(** ** Exceptions and results *)

(** A computation either returns a value or raises an exception of type [X]. *)
Inductive result (X A : Type) : Type :=
  | Ok (a : A)
  | Raise (e : X).
Arguments Ok {X A} a.
Arguments Raise {X A} e.

Definition result_bind {X A B} (f : A → result X B) (r : result X A) : result X B :=
  match r with
  | Ok a => f a
  | Raise e => Raise e
  end.

#[global] Instance result_mbind {X} : MBind (result X) := @result_bind X.
#[global] Instance result_mret {X} : MRet (result X) := @Ok X.

Definition is_ok {X A} (r : result X A) : bool :=
  match r with Ok _ => true | Raise _ => false end.

(** ** Targets, field sets and the engine's values *)

Record Address := { spec_path : string; target_name : string }.

Record Target := { target_address : Address; target_alias : string }.

(** A field of a target, as a field set holds it; [is_secondary_owner] is
    [isinstance(field, SecondaryOwnerMixin)]. *)
Record Field := { field_alias : string; is_secondary_owner : bool }.

(** A [RunFieldSet]: [astuple] is [dataclasses.astuple(field_set)] restricted
    to the fields (the address is never a [SecondaryOwnerMixin]). *)
Record RunFieldSet := { field_set_address : Address; astuple : list Field }.

Record Digest := { fingerprint : string; serialized_bytes_length : nat }.

Record FileContent := { path : string; content : string; is_executable : bool }.

(** What [CreateDigest] accepts. *)
Inductive DigestEntry :=
  | File (f : FileContent)
  | Directory (d : string).

Record BashBinary := { bash_path : string }.

#[global] Instance Address_eq_dec : EqDecision Address.
Proof. solve_decision. Defined.
#[global] Instance Target_eq_dec : EqDecision Target.
Proof. solve_decision. Defined.
#[global] Instance Field_eq_dec : EqDecision Field.
Proof. solve_decision. Defined.
#[global] Instance RunFieldSet_eq_dec : EqDecision RunFieldSet.
Proof. solve_decision. Defined.
#[global] Instance Digest_eq_dec : EqDecision Digest.
Proof. solve_decision. Defined.
#[global] Instance FileContent_eq_dec : EqDecision FileContent.
Proof. solve_decision. Defined.

(** ** [pants/core/goals/run.py] *)

Module Run.

Inductive exn :=
  | TooManyTargetsException
      (mapping : list (Target * list RunFieldSet)) (goal_description : string)
  | AmbiguousImplementationsException
      (target : Target) (field_sets : list RunFieldSet) (goal_description : string)
  | AssertionError
  | IndexError.

Record RankedFieldSets := {
  primary : list RunFieldSet;
  secondary : list RunFieldSet
}.

(** Truthiness of a tuple: [bool(t)] *)
Definition nonempty {T} (t : list T) : bool :=
  match t with [] => false | _ => true end.

Definition _partition {T} (iterable : list T) (pred : T → bool) : list T * list T :=
  (List.filter pred iterable, List.filter (λ x, negb (pred x)) iterable).

(** The predicate handed to [_partition]: no field of the field set is a
    [SecondaryOwnerMixin]. *)
Definition is_primary (field_set : RunFieldSet) : bool :=
  negb (existsb is_secondary_owner (astuple field_set)).

Definition rank (field_sets : list RunFieldSet) : RankedFieldSets :=
  let '(p, s) := _partition field_sets is_primary in
  {| primary := p; secondary := s |}.

(** The [for] loop of [_find_what_to_run] over the items of the mapping
    still to visit, with the two local variables it updates. *)
Fixpoint choose_target
    (mapping : list (Target * list RunFieldSet)) (goal_description : string)
    (items : list (Target * list RunFieldSet))
    (primary_target : option Target) (primary_target_rfs : option RankedFieldSets)
    : result exn (option Target * option RankedFieldSets) :=
  match items with
  | [] => Ok (primary_target, primary_target_rfs)
  | (target, field_sets) :: rest =>
      let rfs := rank field_sets in
      match primary_target, primary_target_rfs with
      | Some _, Some ptr =>
          if nonempty (primary rfs) && negb (nonempty (primary ptr)) then
            choose_target mapping goal_description rest (Some target) (Some rfs)
          else if (nonempty (primary rfs) && nonempty (primary ptr))
                  || (nonempty (secondary rfs) && nonempty (secondary ptr)) then
            Raise (TooManyTargetsException mapping goal_description)
          else
            choose_target mapping goal_description rest primary_target primary_target_rfs
      | _, _ =>
          choose_target mapping goal_description rest (Some target) (Some rfs)
      end
  end.

(** [_find_what_to_run], given the mapping (in iteration order) that the
    engine answered for [TargetRootsToFieldSetsRequest]. *)
Definition _find_what_to_run
    (mapping : list (Target * list RunFieldSet)) (goal_description : string)
    : result exn (RunFieldSet * Target) :=
  '(primary_target, primary_target_rfs) ←
    choose_target mapping goal_description mapping None None;
  match primary_target, primary_target_rfs with
  | Some primary_target, Some primary_target_rfs =>
      let field_sets :=
        if nonempty (primary primary_target_rfs)
        then primary primary_target_rfs else secondary primary_target_rfs in
      if 1 <? length field_sets then
        Raise (AmbiguousImplementationsException primary_target
                 (primary primary_target_rfs ++ secondary primary_target_rfs)
                 goal_description)
      else
        match field_sets with
        | field_set :: _ => Ok (field_set, primary_target)
        | [] => Raise IndexError
        end
  | _, _ => Raise AssertionError
  end.

End Run.

(** ** [pants/core/util_rules/adhoc_process_support.py] *)

Inductive exn :=
  (** [ValueError(msg)] *)
  | ValueError (msg : string)
  (** [UnicodeDecodeError], a subclass of [ValueError], raised by
      [bytes.decode()] for the bytes given *)
  | UnicodeDecodeError (bytes : string)
  (** any exception raised while the engine answers a request *)
  | EngineError (msg : string).

(** *** [_safe_update] *)

Section safe_update.
Context `{Countable K} {V : Type} `{EqDecision V}.

(** [_safe_update(d1, d2)], over the items of [d2] in iteration order. The
    dictionary [d1] is updated in place; the updated dictionary is returned
    here, and nothing is returned when [ValueError("Beep")] is raised. *)
Fixpoint _safe_update (d1 : gmap K V) (items : list (K * V)) : result exn (gmap K V) :=
  match items with
  | [] => Ok d1
  | (k, v) :: rest =>
      match d1 !! k with
      | Some v' =>
          if decide (v' = v) then _safe_update (<[k:=v]> d1) rest
          else Raise (ValueError "Beep")
      | None => _safe_update (<[k:=v]> d1) rest
      end
  end.

(** The accumulation of a sequence of maps into an initially empty
    dictionary, one [_safe_update] per map, as the loop of
    [_resolve_runnable_dependencies] does for each of its two dictionaries. *)
Fixpoint merge_into (acc : gmap K V) (ms : list (gmap K V)) : result exn (gmap K V) :=
  match ms with
  | [] => Ok acc
  | m :: rest =>
      match _safe_update acc (map_to_list m) with
      | Ok acc' => merge_into acc' rest
      | Raise e => Raise e
      end
  end.

Definition merge_maps (ms : list (gmap K V)) : result exn (gmap K V) :=
  merge_into ∅ ms.

(** No key is bound to two unequal values across the maps. *)
Definition compatible (ms : list (gmap K V)) : Prop :=
  ∀ m1 m2 k v1 v2,
    m1 ∈ ms → m2 ∈ ms → m1 !! k = Some v1 → m2 !! k = Some v2 → v1 = v2.

(** Every item agrees with the binding its key already has. *)
Definition agree (d : gmap K V) (items : list (K * V)) : Prop :=
  ∀ k v v', (k, v) ∈ items → d !! k = Some v' → v' = v.

(** Every binding of the mapping [m] agrees with the binding its key has
    in [d]. *)
Definition maps_agree (d m : gmap K V) : Prop :=
  ∀ k v v', m !! k = Some v → d !! k = Some v' → v' = v.

End safe_update.

(** *** Requests and results *)

(** [RunRequest] and its subclass [RunInSandboxRequest] (run.py). *)
Module RunInSandboxRequest.
Record t := {
  digest : Digest;
  args : list string;
  extra_env : list (string * string);
  immutable_input_digests : option (gmap string Digest);
  append_only_caches : option (gmap string string)
}.
End RunInSandboxRequest.

(** The [runnable] dependency declaration. *)
Module runnable.
Record t := { name : string; address : string }.
End runnable.

Module RunnableDependencies.
Record t := {
  path_component : string;
  immutable_input_digests : gmap string Digest;
  append_only_caches : gmap string string
}.
End RunnableDependencies.

Module AdhocProcessRequest.
Record t := {
  description : string;
  address : Address;
  working_directory : string;
  root_output_directory : string;
  argv : list string;
  timeout : option Z;
  input_digest : Digest;
  immutable_input_digests : option (gmap string Digest);
  append_only_caches : option (gmap string string);
  output_files : list string;
  output_directories : list string;
  fetch_env_vars : list string;
  supplied_env_var_values : option (gmap string string);
  log_on_process_errors : option (gmap Z string);
  log_output : bool
}.
End AdhocProcessRequest.

Module Process.
Record t := {
  argv : list string;
  description : string;
  env : gmap string string;
  input_digest : Digest;
  output_directories : list string;
  output_files : list string;
  timeout_seconds : option Z;
  working_directory : option string;
  append_only_caches : gmap string string;
  immutable_input_digests : gmap string Digest
}.
End Process.

Module FallibleProcessResult.
Record t := {
  stdout : string;
  stderr : string;
  exit_code : Z;
  output_digest : Digest
}.
End FallibleProcessResult.

Module ProcessResult.
Record t := {
  stdout : string;
  stderr : string;
  output_digest : Digest
}.
End ProcessResult.

Module AdhocProcessResult.
Record t := {
  process_result : ProcessResult.t;
  adjusted_digest : Digest
}.
End AdhocProcessResult.

(** [FieldSetsPerTarget.collection] *)
Record FieldSetsPerTarget := { collection : list (list RunFieldSet) }.

(** A record handed to the module's [logger]. *)
Inductive LogRecord :=
  | LogError (msg : string)
  | LogInfo (msg : string)
  | LogWarning (msg : string).

(** *** The rule engine

    Each field answers one kind of [Get]; an answer is a value or an
    exception. [EMPTY_DIGEST] is the constant of [pants.engine.fs]. *)
Record Engine := {
  (** [Get(Addresses, UnparsedAddressInputs(values, owning_address, description_of_origin))] *)
  get_addresses : list string → Address → string → result exn (list Address);
  (** [Get(Targets, Addresses, addresses)] *)
  get_targets : list Address → result exn (list Target);
  (** [Get(FieldSetsPerTarget, FieldSetsPerTargetRequest(RunFieldSet, targets))] *)
  get_field_sets_per_target : list Target → result exn FieldSetsPerTarget;
  (** [Get(RunInSandboxRequest, RunFieldSet, x)] for an element [x] of [fspt] *)
  get_run_in_sandbox_request : FieldSetsPerTarget → result exn RunInSandboxRequest.t;
  (** [Get(Digest, MergeDigests(digests))] *)
  get_merge_digests : list Digest → result exn Digest;
  (** [Get(Digest, CreateDigest(entries))] *)
  get_create_digest : list DigestEntry → result exn Digest;
  (** [Get(EnvironmentVars, EnvironmentVarsRequest(names))] *)
  get_environment_vars : list string → result exn (gmap string string);
  (** [(await Get(Snapshot, Digest, digest)).dirs] *)
  get_snapshot_dirs : Digest → result exn (list string);
  (** [Get(FallibleProcessResult, Process, process)] *)
  get_fallible_process_result : Process.t → result exn FallibleProcessResult.t;
  (** [Get(ProcessResult, {fallible_result, ProductDescription(description)})] *)
  get_process_result : FallibleProcessResult.t → string → result exn ProcessResult.t;
  (** [Get(Digest, RemovePrefix(digest, prefix))] *)
  get_remove_prefix : Digest → string → result exn Digest;
  EMPTY_DIGEST : Digest
}.

(** [await MultiGet(gets)]: one answer per request, in order, or the
    exception of the first request that fails. *)
Fixpoint MultiGet {A B} (get : A → result exn B) (inputs : list A) : result exn (list B) :=
  match inputs with
  | [] => Ok []
  | x :: rest =>
      match get x with
      | Ok y => match MultiGet get rest with
                | Ok ys => Ok (y :: ys)
                | Raise e => Raise e
                end
      | Raise e => Raise e
      end
  end.

(** *** [_runnable_dependency_shim] *)

(** The indentation of the lines of the template in the source. *)
Definition shim_indent : string := "        ".

(** The f-string handed to [dedent]: the three template lines and the
    indentation before the closing quotes, after interpolation. *)
Definition shim_template (bash env_str binary : string) : string :=
  shim_indent +:+ "#!" +:+ bash +:+ Py.nl
  +:+ shim_indent +:+ env_str +:+ Py.nl
  +:+ shim_indent +:+ "exec " +:+ binary +:+ " " +:+ Py.dq +:+ "$@" +:+ Py.dq +:+ Py.nl
  +:+ shim_indent.

Definition export_line (item : string * string) : string :=
  "export " +:+ Shlex.quote item.1 +:+ "=" +:+ Shlex.quote item.2.

(** The bytes of the script ([.encode()] is the identity on this model of
    strings). *)
Definition _runnable_dependency_shim
    (bash : string) (args : list string) (extra_env : list (string * string)) : string :=
  let binary := Py.join " " (map Shlex.quote args) in
  let env_str := Py.join Py.nl (map export_line extra_env) in
  Textwrap.dedent (shim_template bash env_str binary).

(** *** [_resolve_runnable_dependencies] *)

Definition incompatible_environments : string :=
  "One or more runnable dependencies have mutually incompatible environments.".

(** The four local accumulators of the loop. *)
Record Collected := {
  digests : list Digest;
  shims : list FileContent;
  immutable_input_digests : gmap string Digest;
  append_only_caches : gmap string string
}.

Definition nothing_collected : Collected :=
  {| digests := []; shims := []; immutable_input_digests := ∅; append_only_caches := ∅ |}.

(** [runnable.immutable_input_digests or {}] and
    [runnable.append_only_caches or {}] *)
Definition extra_immutable_input_digests (r : RunInSandboxRequest.t) : gmap string Digest :=
  default ∅ (RunInSandboxRequest.immutable_input_digests r).

Definition extra_append_only_caches (r : RunInSandboxRequest.t) : gmap string string :=
  default ∅ (RunInSandboxRequest.append_only_caches r).

(** [try: ... except ValueError: raise ValueError(...)] around the two
    [_safe_update] calls; the handler catches [ValueError] and its
    subclasses. *)
Definition merge_environments (st : Collected) (r : RunInSandboxRequest.t)
    : result exn (gmap string Digest * gmap string string) :=
  match
    iid ← _safe_update (immutable_input_digests st)
            (map_to_list (extra_immutable_input_digests r));
    aoc ← _safe_update (append_only_caches st)
            (map_to_list (extra_append_only_caches r));
    mret (iid, aoc)
  with
  | Raise (ValueError _) | Raise (UnicodeDecodeError _) =>
      Raise (ValueError incompatible_environments)
  | other => other
  end.

(** The [FileContent] appended to [shims] for one declaration. *)
Definition shim_file (bash : BashBinary) (dep : runnable.t) (r : RunInSandboxRequest.t)
    : FileContent :=
  {| path := runnable.name dep;
     content := _runnable_dependency_shim (bash_path bash)
                  (RunInSandboxRequest.args r) (RunInSandboxRequest.extra_env r);
     is_executable := true |}.

(** The loop [for dep, runnable in zip(deps, runnables)], over the pairs
    still to visit. *)
Fixpoint collect (bash : BashBinary)
    (pairs : list (runnable.t * RunInSandboxRequest.t)) (st : Collected)
    : result exn Collected :=
  match pairs with
  | [] => Ok st
  | (dep, r) :: rest =>
      let digests' := digests st ++ [RunInSandboxRequest.digest r] in
      let shims' := shims st ++ [shim_file bash dep r] in
      match merge_environments st r with
      | Ok (iid, aoc) =>
          collect bash rest
            {| digests := digests'; shims := shims';
               immutable_input_digests := iid; append_only_caches := aoc |}
      | Raise e => Raise e
      end
  end.

(** [zip(deps, runnables)] *)
Definition zip {A B} (xs : list A) (ys : list B) : list (A * B) := List.combine xs ys.

(** The function from the point where [runnables] is bound on: the loop,
    the two digests requested together, and the registration of the shim
    digest. *)
Definition resolve_from_runnables (E : Engine) (bash : BashBinary)
    (deps : list runnable.t) (runnables : list RunInSandboxRequest.t)
    : result exn (Digest * RunnableDependencies.t) :=
  st ← collect bash (zip deps runnables) nothing_collected;
  digest ← get_merge_digests E (digests st);
  shim_digest ← get_create_digest E (map File (shims st));
  let shim_digest_path := "shims_" +:+ fingerprint shim_digest in
  let immutable_input_digests := <[shim_digest_path := shim_digest]> (immutable_input_digests st) in
  mret (digest,
        {| RunnableDependencies.path_component := shim_digest_path;
           RunnableDependencies.immutable_input_digests := immutable_input_digests;
           RunnableDependencies.append_only_caches := append_only_caches st |}).

(** The requests that bind [runnables]. [fspt] is the one-element tuple
    [(await Get(FieldSetsPerTarget, ...),)], and one
    [Get(RunInSandboxRequest, RunFieldSet, field_set)] is issued per element
    of [fspt]. *)
Definition request_runnables (E : Engine)
    (deps : list runnable.t) (owning : Address) (origin : string)
    : result exn (list RunInSandboxRequest.t) :=
  addresses ← get_addresses E (map runnable.address deps) owning origin;
  targets ← get_targets E addresses;
  fspt ← (x ← get_field_sets_per_target E targets; mret [x]);
  MultiGet (get_run_in_sandbox_request E) fspt.

Definition _resolve_runnable_dependencies (E : Engine) (bash : BashBinary)
    (deps : list runnable.t) (owning : Address) (origin : string)
    : result exn (Digest * RunnableDependencies.t) :=
  runnables ← request_runnables E deps owning origin;
  resolve_from_runnables E bash deps runnables.

(** *** [_parse_relative_directory] *)

Definition _parse_relative_directory (workdir_in : string) (relative_to : Address + string)
    : string :=
  let reldir :=
    match relative_to with
    | inl address => spec_path address
    | inr s => s
    end in
  if String.eqb workdir_in "." then reldir
  else if Py.startswith workdir_in "./" then OsPath.join reldir (Py.slice_from 2 workdir_in)
  else if Py.startswith workdir_in "/" then Py.slice_from 1 workdir_in
  else workdir_in.

(** *** [_output_at_build_root] *)

Definition _output_at_build_root (process : Process.t) (bash : BashBinary) : Process.t :=
  let working_directory := default "" (Process.working_directory process) in
  let output_directories :=
    if Py.truthy working_directory
    then map (OsPath.join working_directory) (Process.output_directories process)
    else Process.output_directories process in
  let output_files :=
    if Py.truthy working_directory
    then map (OsPath.join working_directory) (Process.output_files process)
    else Process.output_files process in
  let cd :=
    if Py.truthy working_directory
    then "cd " +:+ Shlex.quote working_directory +:+ " && " else "" in
  let shlexed_argv := Py.join " " (map Shlex.quote (Process.argv process)) in
  let new_argv := [bash_path bash; "-c"; cd +:+ shlexed_argv] in
  {| Process.argv := new_argv;
     Process.description := Process.description process;
     Process.env := Process.env process;
     Process.input_digest := Process.input_digest process;
     Process.output_directories := output_directories;
     Process.output_files := output_files;
     Process.timeout_seconds := Process.timeout_seconds process;
     Process.working_directory := None;
     Process.append_only_caches := Process.append_only_caches process;
     Process.immutable_input_digests := Process.immutable_input_digests process |}.

(** *** [prepare_adhoc_process] *)

Definition prepare_adhoc_process (E : Engine) (request : AdhocProcessRequest.t)
    (bash : BashBinary) : result exn Process.t :=
  let description := AdhocProcessRequest.description request in
  let address := AdhocProcessRequest.address request in
  let working_directory :=
    _parse_relative_directory (AdhocProcessRequest.working_directory request) (inl address) in
  let supplied_env_vars := default ∅ (AdhocProcessRequest.supplied_env_var_values request) in
  let append_only_caches := default ∅ (AdhocProcessRequest.append_only_caches request) in
  let immutable_input_digests :=
    default ∅ (AdhocProcessRequest.immutable_input_digests request) in
  extra_env ← get_environment_vars E (AdhocProcessRequest.fetch_env_vars request);
  let command_env := supplied_env_vars ∪ extra_env in
  dirs ← get_snapshot_dirs E (AdhocProcessRequest.input_digest request);
  work_dir ←
    (if negb (Py.truthy working_directory) || bool_decide (working_directory ∈ dirs)
     then Ok (EMPTY_DIGEST E)
     else get_create_digest E [Directory working_directory]);
  input_digest ← get_merge_digests E [AdhocProcessRequest.input_digest request; work_dir];
  let proc :=
    {| Process.argv := AdhocProcessRequest.argv request;
       Process.description := "Running " +:+ description;
       Process.env := command_env;
       Process.input_digest := input_digest;
       Process.output_directories := AdhocProcessRequest.output_directories request;
       Process.output_files := AdhocProcessRequest.output_files request;
       Process.timeout_seconds := AdhocProcessRequest.timeout request;
       Process.working_directory := Some working_directory;
       Process.append_only_caches := append_only_caches;
       Process.immutable_input_digests := immutable_input_digests |} in
  mret (_output_at_build_root proc bash).

(** *** [run_adhoc_process]

    The records logged so far are returned together with the outcome. *)

Definition error_log (request : AdhocProcessRequest.t) (exit_code : Z) : list LogRecord :=
  let log_on_errors := default ∅ (AdhocProcessRequest.log_on_process_errors request) in
  match log_on_errors !! exit_code with
  | Some error_to_log => if Py.truthy error_to_log then [LogError error_to_log] else []
  | None => []
  end.

(** [b.decode()]. The text is kept as the bytes that encode it. *)
Definition decode (b : string) : result exn string :=
  if Py.utf8_valid b then Ok b else Raise (UnicodeDecodeError b).

(** The block [if request.log_output: ...]: the records logged, and the
    exception of the first [decode()] that fails, if one does. Standard
    output is decoded and logged before standard error is decoded. *)
Definition output_log (request : AdhocProcessRequest.t) (res : ProcessResult.t)
    : list LogRecord * option exn :=
  if AdhocProcessRequest.log_output request then
    match
      (if Py.truthy (ProcessResult.stdout res)
       then (text ← decode (ProcessResult.stdout res); mret [LogInfo text])
       else Ok [])
    with
    | Raise e => ([], Some e)
    | Ok info =>
        match
          (if Py.truthy (ProcessResult.stderr res)
           then (text ← decode (ProcessResult.stderr res); mret [LogWarning text])
           else Ok [])
        with
        | Raise e => (info, Some e)
        | Ok warning => (info ++ warning, None)
        end
    end
  else ([], None).

(** The prefix handed to [RemovePrefix]. *)
Definition output_prefix (request : AdhocProcessRequest.t) : string :=
  let working_directory :=
    _parse_relative_directory (AdhocProcessRequest.working_directory request)
      (inl (AdhocProcessRequest.address request)) in
  _parse_relative_directory (AdhocProcessRequest.root_output_directory request)
    (inr working_directory).

Definition run_adhoc_process (E : Engine) (bash : BashBinary)
    (request : AdhocProcessRequest.t)
    : list LogRecord * result exn AdhocProcessResult.t :=
  match prepare_adhoc_process E request bash with
  | Raise e => ([], Raise e)
  | Ok process =>
    match get_fallible_process_result E process with
    | Raise e => ([], Raise e)
    | Ok fallible_result =>
      let log1 := error_log request (FallibleProcessResult.exit_code fallible_result) in
      match get_process_result E fallible_result (AdhocProcessRequest.description request) with
      | Raise e => (log1, Raise e)
      | Ok result =>
        let log2 := log1 ++ (output_log request result).1 in
        match (output_log request result).2 with
        | Some e => (log2, Raise e)
        | None =>
          let root_output_directory := output_prefix request in
          match get_remove_prefix E (ProcessResult.output_digest result)
                  root_output_directory with
          | Raise e => (log2, Raise e)
          | Ok adjusted =>
              (log2, Ok {| AdhocProcessResult.process_result := result;
                           AdhocProcessResult.adjusted_digest := adjusted |})
          end
        end
      end
    end
  end.


(** ** Statements about runnable dependencies *)

(** Two run specifications bind a shared immutable-input-digest key or a
    shared append-only-cache key to two different values. *)
Definition disagree (r1 r2 : RunInSandboxRequest.t) : Prop :=
  (∃ k v1 v2,
      extra_immutable_input_digests r1 !! k = Some v1
      ∧ extra_immutable_input_digests r2 !! k = Some v2 ∧ v1 ≠ v2)
  ∨ (∃ k v1 v2,
      extra_append_only_caches r1 !! k = Some v1
      ∧ extra_append_only_caches r2 !! k = Some v2 ∧ v1 ≠ v2).

(** ** Sample values *)

Definition sample_bash : BashBinary := {| bash_path := "/bin/bash" |}.

Definition digest_of (fp : string) : Digest :=
  {| fingerprint := fp; serialized_bytes_length := 0 |}.

Definition sample_address : Address := {| spec_path := "src/app"; target_name := "app" |}.

Definition entry_name (e : DigestEntry) : string :=
  match e with File f => path f | Directory d => d end.

(** A run specification with the given argv, environment and extra
    immutable input digests. *)
Definition run_spec (argv : list string) (env : list (string * string))
    (iid : option (gmap string Digest)) (aoc : option (gmap string string))
    : RunInSandboxRequest.t :=
  {| RunInSandboxRequest.digest := digest_of "run";
     RunInSandboxRequest.args := argv;
     RunInSandboxRequest.extra_env := env;
     RunInSandboxRequest.immutable_input_digests := iid;
     RunInSandboxRequest.append_only_caches := aoc |}.

(** An engine that answers every request: addresses and targets are made
    from the strings given, every run request is answered with [spec], a
    created digest is fingerprinted by the names of its entries, and a
    process exits with [code]. *)
Definition sample_engine (spec : RunInSandboxRequest.t) (code : Z) : Engine :=
  {| get_addresses := λ values owning _,
       Ok (map (λ v, {| spec_path := spec_path owning; target_name := v |}) values);
     get_targets := λ addresses,
       Ok (map (λ a, {| target_address := a; target_alias := "target" |}) addresses);
     get_field_sets_per_target := λ targets,
       Ok {| collection :=
               map (λ t, [ {| field_set_address := target_address t; astuple := [] |} ])
                 targets |};
     get_run_in_sandbox_request := λ _, Ok spec;
     get_merge_digests := λ ds, Ok (digest_of (Py.join "+" (map fingerprint ds)));
     get_create_digest := λ es, Ok (digest_of (Py.join "," (map entry_name es)));
     get_environment_vars := λ _, Ok ∅;
     get_snapshot_dirs := λ _, Ok [];
     get_fallible_process_result := λ p,
       Ok {| FallibleProcessResult.stdout := "";
             FallibleProcessResult.stderr := "";
             FallibleProcessResult.exit_code := code;
             FallibleProcessResult.output_digest := digest_of "raw" |};
     get_process_result := λ f _,
       Ok {| ProcessResult.stdout := FallibleProcessResult.stdout f;
             ProcessResult.stderr := FallibleProcessResult.stderr f;
             ProcessResult.output_digest := FallibleProcessResult.output_digest f |};
     get_remove_prefix := λ d prefix,
       if decide (d = digest_of "raw" ∧ prefix = "src/app/out")
       then Ok (digest_of "adjusted")
       else Raise (EngineError "prefix");
     EMPTY_DIGEST := digest_of "" |}.

Definition fmt_declaration : runnable.t :=
  {| runnable.name := "fmt"; runnable.address := ":formatter" |}.

Definition lint_declaration : runnable.t :=
  {| runnable.name := "lint"; runnable.address := ":linter" |}.

Definition fmt_spec : RunInSandboxRequest.t := run_spec ["/bin/fmt"; "-w"] [] None None.

(** Two run specifications that bind the key [jdk] to two digests. *)
Definition fmt_jdk11 : RunInSandboxRequest.t :=
  run_spec ["/bin/fmt"] [] (Some {[ "jdk" := digest_of "jdk11" ]}) None.

Definition lint_jdk17 : RunInSandboxRequest.t :=
  run_spec ["/bin/lint"] [] (Some {[ "jdk" := digest_of "jdk17" ]}) None.

(** The engine [E] with another answer to
    [Get(RunInSandboxRequest, RunFieldSet, x)]. *)
Definition with_run_in_sandbox_request (E : Engine)
    (answer : FieldSetsPerTarget → result exn RunInSandboxRequest.t) : Engine :=
  {| get_addresses := get_addresses E;
     get_targets := get_targets E;
     get_field_sets_per_target := get_field_sets_per_target E;
     get_run_in_sandbox_request := answer;
     get_merge_digests := get_merge_digests E;
     get_create_digest := get_create_digest E;
     get_environment_vars := get_environment_vars E;
     get_snapshot_dirs := get_snapshot_dirs E;
     get_fallible_process_result := get_fallible_process_result E;
     get_process_result := get_process_result E;
     get_remove_prefix := get_remove_prefix E;
     EMPTY_DIGEST := EMPTY_DIGEST E |}.

(** The process of the scenario: working directory [src/app], argv
    [echo hi], one relative and one absolute declared output. *)
Definition echo_process : Process.t :=
  {| Process.argv := ["echo"; "hi"];
     Process.description := "Running the scenario";
     Process.env := ∅;
     Process.input_digest := digest_of "input";
     Process.output_directories := ["dist"];
     Process.output_files := ["out.txt"; "/tmp/out.txt"];
     Process.timeout_seconds := None;
     Process.working_directory := Some "src/app";
     Process.append_only_caches := ∅;
     Process.immutable_input_digests := ∅ |}.

(** ** Sample root selections *)

(** A field set none of whose fields is a secondary owner, and one with a
    secondary-owner field. *)
Definition primary_field_set (alias : string) : RunFieldSet :=
  {| field_set_address := sample_address;
     astuple := [ {| field_alias := alias; is_secondary_owner := false |} ] |}.

Definition secondary_field_set (alias : string) : RunFieldSet :=
  {| field_set_address := sample_address;
     astuple := [ {| field_alias := alias; is_secondary_owner := true |} ] |}.

Definition target_named (n : string) : Target :=
  {| target_address := {| spec_path := "src/app"; target_name := n |};
     target_alias := "binary" |}.

(** Target [a] has one primary and one secondary field set, target [b] has
    one secondary field set only. *)
Definition a_then_b : list (Target * list RunFieldSet) :=
  [ (target_named "a", [primary_field_set "main"; secondary_field_set "entry_point"]);
    (target_named "b", [secondary_field_set "entry_point"]) ].

Definition b_then_a : list (Target * list RunFieldSet) :=
  [ (target_named "b", [secondary_field_set "entry_point"]);
    (target_named "a", [primary_field_set "main"; secondary_field_set "entry_point"]) ].

(** ** The content behind a digest *)



(** A request that runs in the source directory of [src/app:app] and
    collects its outputs below [./out]. *)
Definition sample_request : AdhocProcessRequest.t :=
  {| AdhocProcessRequest.description := "the scenario";
     AdhocProcessRequest.address := sample_address;
     AdhocProcessRequest.working_directory := ".";
     AdhocProcessRequest.root_output_directory := "./out";
     AdhocProcessRequest.argv := ["echo"; "hi"];
     AdhocProcessRequest.timeout := None;
     AdhocProcessRequest.input_digest := digest_of "input";
     AdhocProcessRequest.immutable_input_digests := None;
     AdhocProcessRequest.append_only_caches := None;
     AdhocProcessRequest.output_files := [];
     AdhocProcessRequest.output_directories := ["out"];
     AdhocProcessRequest.fetch_env_vars := [];
     AdhocProcessRequest.supplied_env_var_values := None;
     AdhocProcessRequest.log_on_process_errors := Some {[ 1%Z := "the command failed" ]};
     AdhocProcessRequest.log_output := false |}.

(** A run specification with two extra environment variables. *)
Definition two_variables_spec : RunInSandboxRequest.t :=
  run_spec ["/bin/fmt"; "-w"] [("X", "1"); ("Y", "2")] None None.

(** The sample request with another working directory and root output
    directory. *)
Definition request_in (working_directory root_output_directory : string)
    : AdhocProcessRequest.t :=
  {| AdhocProcessRequest.description := "the scenario";
     AdhocProcessRequest.address := sample_address;
     AdhocProcessRequest.working_directory := working_directory;
     AdhocProcessRequest.root_output_directory := root_output_directory;
     AdhocProcessRequest.argv := ["echo"; "hi"];
     AdhocProcessRequest.timeout := None;
     AdhocProcessRequest.input_digest := digest_of "input";
     AdhocProcessRequest.immutable_input_digests := None;
     AdhocProcessRequest.append_only_caches := None;
     AdhocProcessRequest.output_files := [];
     AdhocProcessRequest.output_directories := ["out"];
     AdhocProcessRequest.fetch_env_vars := [];
     AdhocProcessRequest.supplied_env_var_values := None;
     AdhocProcessRequest.log_on_process_errors := Some {[ 1%Z := "the command failed" ]};
     AdhocProcessRequest.log_output := false |}.


(** ** Statements about the choice of a target *)

(** A target's field sets include a primary one, or a secondary one. *)
Definition has_primary (field_sets : list RunFieldSet) : bool :=
  Run.nonempty (Run.primary (Run.rank field_sets)).

Definition has_secondary (field_sets : list RunFieldSet) : bool :=
  Run.nonempty (Run.secondary (Run.rank field_sets)).

(** Two entries of the mapping have field sets of the same rank: both a
    primary one, or both a secondary one. *)
Definition same_rank (e1 e2 : Target * list RunFieldSet) : Prop :=
  (has_primary e1.2 = true ∧ has_primary e2.2 = true)
  ∨ (has_secondary e1.2 = true ∧ has_secondary e2.2 = true).

(** A mapping of three targets, two of which have a primary field set. *)
Definition two_primary_targets : list (Target * list RunFieldSet) :=
  [ (target_named "a", [primary_field_set "main"]);
    (target_named "b", [secondary_field_set "entry_point"]);
    (target_named "c", [primary_field_set "main"; secondary_field_set "entry_point"]) ].

(** A target with two primary field sets and one secondary one. *)
Definition ambiguous_target : list (Target * list RunFieldSet) :=
  [ (target_named "a",
     [primary_field_set "main"; secondary_field_set "entry_point"; primary_field_set "script"]) ].

(** ** Statements about strings *)

(** The string has a newline character. *)
Fixpoint contains_newline (s : string) : bool :=
  match s with
  | EmptyString => false
  | String c rest => Ascii.eqb c Py.newline || contains_newline rest
  end.

(** The [exec] line of a wrapper script, without its newline. *)
Definition exec_line (args : list string) : string :=
  "exec " +:+ Py.join " " (map Shlex.quote args) +:+ " " +:+ Py.dq +:+ "$@" +:+ Py.dq.

(** The directory a working directory is resolved against. *)
Definition base_directory (relative_to : Address + string) : string :=
  match relative_to with
  | inl address => spec_path address
  | inr s => s
  end.

(** ** Statements about the prepared process *)

(** The engine [E] with another answer to [CreateDigest]. *)
Definition with_create_digest (E : Engine)
    (create : list DigestEntry → result exn Digest) : Engine :=
  {| get_addresses := get_addresses E;
     get_targets := get_targets E;
     get_field_sets_per_target := get_field_sets_per_target E;
     get_run_in_sandbox_request := get_run_in_sandbox_request E;
     get_merge_digests := get_merge_digests E;
     get_create_digest := create;
     get_environment_vars := get_environment_vars E;
     get_snapshot_dirs := get_snapshot_dirs E;
     get_fallible_process_result := get_fallible_process_result E;
     get_process_result := get_process_result E;
     get_remove_prefix := get_remove_prefix E;
     EMPTY_DIGEST := EMPTY_DIGEST E |}.

(** The working directory of a request, resolved against its address. *)
Definition resolved_working_directory (request : AdhocProcessRequest.t) : string :=
  _parse_relative_directory (AdhocProcessRequest.working_directory request)
    (inl (AdhocProcessRequest.address request)).

(** An engine whose ambient environment has [PATH] and [LANG], and whose
    input snapshot has the directory [src/app]. *)
Definition ambient_engine : Engine :=
  {| get_addresses := get_addresses (sample_engine fmt_spec 0);
     get_targets := get_targets (sample_engine fmt_spec 0);
     get_field_sets_per_target := get_field_sets_per_target (sample_engine fmt_spec 0);
     get_run_in_sandbox_request := get_run_in_sandbox_request (sample_engine fmt_spec 0);
     get_merge_digests := get_merge_digests (sample_engine fmt_spec 0);
     get_create_digest := get_create_digest (sample_engine fmt_spec 0);
     get_environment_vars := λ _, Ok {[ "PATH" := "/usr/bin"; "LANG" := "C" ]};
     get_snapshot_dirs := λ _, Ok ["src"; "src/app"];
     get_fallible_process_result := get_fallible_process_result (sample_engine fmt_spec 0);
     get_process_result := get_process_result (sample_engine fmt_spec 0);
     get_remove_prefix := get_remove_prefix (sample_engine fmt_spec 0);
     EMPTY_DIGEST := digest_of "" |}.

(** A request that overrides [PATH]. *)
Definition override_request : AdhocProcessRequest.t :=
  {| AdhocProcessRequest.description := "the scenario";
     AdhocProcessRequest.address := sample_address;
     AdhocProcessRequest.working_directory := ".";
     AdhocProcessRequest.root_output_directory := ".";
     AdhocProcessRequest.argv := ["echo"; "hi"];
     AdhocProcessRequest.timeout := None;
     AdhocProcessRequest.input_digest := digest_of "input";
     AdhocProcessRequest.immutable_input_digests := None;
     AdhocProcessRequest.append_only_caches := None;
     AdhocProcessRequest.output_files := ["out.txt"];
     AdhocProcessRequest.output_directories := [];
     AdhocProcessRequest.fetch_env_vars := ["PATH"; "LANG"];
     AdhocProcessRequest.supplied_env_var_values := Some {[ "PATH" := "/opt/bin" ]};
     AdhocProcessRequest.log_on_process_errors := None;
     AdhocProcessRequest.log_output := false |}.

(** ** [resolve_execution_environment] *)

Module ResolveExecutionDependenciesRequest.
Record t := {
  address : Address;
  (** [tuple[str | runnable, ...] | None] *)
  execution_dependencies : option (list (string + runnable.t));
  dependencies : option (list string)
}.
End ResolveExecutionDependenciesRequest.

Module ResolvedExecutionDependencies.
Record t := {
  digest : Digest;
  runnable_dependencies : option RunnableDependencies.t
}.
End ResolvedExecutionDependencies.

(** A [PackageFieldSet], as far as this rule uses it. *)
Record PackageFieldSet := { package_address : Address; package_alias : string }.

(** [TransitiveTargets]. Each root comes with the outcome of the identity
    test [root.address is target_address] against the address object of the
    request. *)
Record TransitiveTargets := {
  roots : list (Target * bool);
  transitive_dependencies : list Target
}.

(** The requests of [resolve_execution_environment] that [Engine] does not
    have, [str(address)], and [warn_or_error] of [pants.base.deprecated],
    which returns after warning or raises. *)
Record GraphEngine := {
  address_str : Address → string;
  (** [warn_or_error(removal_version, entity, hint, print_warning=True)] *)
  warn_or_error : string → string → string → result exn unit;
  (** [Get(TransitiveTargets, TransitiveTargetsRequest(addresses))] *)
  get_transitive_targets : list Address → result exn TransitiveTargets;
  (** [(await Get(SourceFiles, SourceFilesRequest(...))).snapshot.digest], for the
      sources fields of the given targets *)
  get_source_files : list Target → result exn Digest;
  (** [(await Get(FieldSetsPerTarget, FieldSetsPerTargetRequest(PackageFieldSet, targets))).field_sets] *)
  get_package_field_sets : list Target → result exn (list PackageFieldSet);
  (** [(await Get(BuiltPackage, EnvironmentAwarePackageRequest(field_set))).digest] *)
  get_built_package : PackageFieldSet → result exn Digest
}.

(** [i for i in raw if isinstance(i, str)] and
    [i for i in raw if isinstance(i, runnable)] *)
Definition strings_of (raw : list (string + runnable.t)) : list string :=
  omap (λ i, match i with inl s => Some s | inr _ => None end) raw.

Definition runnables_of (raw : list (string + runnable.t)) : list runnable.t :=
  omap (λ i, match i with inl _ => None | inr r => Some r end) raw.

Definition deprecation_entity : string :=
  "Using `dependencies` to specify execution-time dependencies for `shell_command` ".

Definition deprecation_hint : string :=
  "To clear this warning, use the `output_dependencies` and `execution_dependencies`"
  +:+ "fields. Set `execution_dependencies=()` if you have no execution-time "
  +:+ "dependencies.".

(** The three branches that bind [execution_dependencies],
    [runnables_digest] and [runnable_dependencies]. *)
Definition execution_roots (G : GraphEngine) (E : Engine) (bash : BashBinary)
    (request : ResolveExecutionDependenciesRequest.t)
    : result exn (list Address * Digest * option RunnableDependencies.t) :=
  let target_address := ResolveExecutionDependenciesRequest.address request in
  match ResolveExecutionDependenciesRequest.execution_dependencies request with
  | Some raw_execution_dependencies =>
      let _descr :=
        "the `execution_dependencies` from the target " +:+ address_str G target_address in
      let strings := strings_of raw_execution_dependencies in
      let runnables := runnables_of raw_execution_dependencies in
      execution_dependencies ← get_addresses E strings target_address _descr;
      '(runnables_digest, runnable_dependencies) ←
        _resolve_runnable_dependencies E bash runnables target_address _descr;
      mret (execution_dependencies, runnables_digest, Some runnable_dependencies)
  | None =>
      match ResolveExecutionDependenciesRequest.dependencies request with
      | Some _ =>
          _ ← warn_or_error G "2.17.0.dev0" deprecation_entity deprecation_hint;
          mret ([target_address], EMPTY_DIGEST E, None)
      | None => mret ([target_address], EMPTY_DIGEST E, None)
      end
  end.

(** The tuple of the roots [i] of [transitive.roots] for which
    [i.address is not target_address], followed by
    [transitive.dependencies]. *)
Definition all_dependencies (transitive : TransitiveTargets) : list Target :=
  map fst (List.filter (λ root, negb root.2) (roots transitive))
  ++ transitive_dependencies transitive.

Definition resolve_execution_environment (G : GraphEngine) (E : Engine) (bash : BashBinary)
    (request : ResolveExecutionDependenciesRequest.t)
    : result exn ResolvedExecutionDependencies.t :=
  '(execution_dependencies, runnables_digest, runnable_dependencies) ←
    execution_roots G E bash request;
  transitive ← get_transitive_targets G execution_dependencies;
  let all_dependencies := all_dependencies transitive in
  sources ← get_source_files G all_dependencies;
  field_sets ← get_package_field_sets G all_dependencies;
  packages ← MultiGet (get_built_package G) field_sets;
  dependencies_digest ← get_merge_digests E (sources :: runnables_digest :: packages);
  mret {| ResolvedExecutionDependencies.digest := dependencies_digest;
          ResolvedExecutionDependencies.runnable_dependencies := runnable_dependencies |}.

(** The graph engine [G] with another [warn_or_error]. *)
Definition with_warn_or_error (G : GraphEngine)
    (warn : string → string → string → result exn unit) : GraphEngine :=
  {| address_str := address_str G;
     warn_or_error := warn;
     get_transitive_targets := get_transitive_targets G;
     get_source_files := get_source_files G;
     get_package_field_sets := get_package_field_sets G;
     get_built_package := get_built_package G |}.

Definition execution_request (address : Address)
    (execution_dependencies : option (list (string + runnable.t)))
    (dependencies : option (list string)) : ResolveExecutionDependenciesRequest.t :=
  {| ResolveExecutionDependenciesRequest.address := address;
     ResolveExecutionDependenciesRequest.execution_dependencies := execution_dependencies;
     ResolveExecutionDependenciesRequest.dependencies := dependencies |}.

(** A graph engine in which every address is a target without
    dependencies, one package is built, and the deprecation only warns. *)
Definition sample_graph : GraphEngine :=
  {| address_str := λ a, spec_path a +:+ ":" +:+ target_name a;
     warn_or_error := λ _ _ _, Ok ();
     get_transitive_targets := λ addresses,
       Ok {| roots := map (λ a, ({| target_address := a; target_alias := "target" |}, false))
                        addresses;
             transitive_dependencies := [] |};
     get_source_files := λ targets,
       Ok (digest_of (Py.join "," (map (λ t, target_name (target_address t)) targets)));
     get_package_field_sets := λ targets,
       Ok (map (λ t, {| package_address := target_address t; package_alias := "archive" |})
             targets);
     get_built_package := λ fs, Ok (digest_of (target_name (package_address fs) +:+ ".zip")) |}.

(** The description of origin handed to the address resolution. *)
Definition origin_of (G : GraphEngine) (address : Address) : string :=
  "the `execution_dependencies` from the target " +:+ address_str G address.

(** ** [pants/backend/scala/subsystems/scalac.py] *)

Module Scalac.

(** [c.isspace()] for a character below 256: the ASCII white space, the
    four separators 28 to 31, NEL (133) and the no-break space (160). *)
Definition isspace (c : ascii) : bool :=
  let n := nat_of_ascii c in
  ((9 <=? n) && (n <=? 13)) || ((28 <=? n) && (n <=? 32)) || (n =? 133) || (n =? 160).

(** [s.lstrip()], [s.rstrip()] and [s.strip()] *)
Fixpoint lstrip (s : string) : string :=
  match s with
  | EmptyString => EmptyString
  | String c rest => if isspace c then lstrip rest else s
  end.

Fixpoint rstrip (s : string) : string :=
  match s with
  | EmptyString => EmptyString
  | String c rest =>
      match rstrip rest with
      | EmptyString => if isspace c then EmptyString else String c EmptyString
      | kept => String c kept
      end
  end.

Definition strip (s : string) : string := rstrip (lstrip s).

(** [[i.strip() for i in value.split(",")]] *)
Definition plugin_names (value : string) : list string :=
  map strip (Py.split_char ","%char value).

(** [Scalac.parsed_default_plugins], given the value of the
    [default_plugins] option. *)
Definition parsed_default_plugins (default_plugins : gmap string string)
    : gmap string (list string) :=
  plugin_names <$> default_plugins.

End Scalac.

(** The number of occurrences of a character. *)
Fixpoint count_char (c : ascii) (s : string) : nat :=
  match s with
  | EmptyString => 0
  | String a rest => (if Ascii.eqb a c then 1 else 0) + count_char c rest
  end.

(** The first and the last character of a string. *)
Definition first_char (s : string) : option ascii :=
  match s with EmptyString => None | String c _ => Some c end.

Fixpoint last_char (s : string) : option ascii :=
  match s with
  | EmptyString => None
  | String c EmptyString => Some c
  | String _ rest => last_char rest
  end.

(** No white space at either end. *)
Definition trimmed (s : string) : Prop :=
  (∀ c, first_char s = Some c → Scalac.isspace c = false)
  ∧ (∀ c, last_char s = Some c → Scalac.isspace c = false).

(** ** [pants/backend/python/bsp] *)

Module Bsp.

(** JSON values as Python holds them; the keys of a dictionary are
    distinct and kept in insertion order. *)
#[local] Unset Elimination Schemes.
Inductive json :=
  | JNull
  | JBool (b : bool)
  | JNumber (n : Z)
  | JString (s : string)
  | JList (xs : list json)
  | JDict (entries : list (string * json)).
#[local] Set Elimination Schemes.

Inductive exn :=
  | KeyError (key : string)
  | TypeError (msg : string)
  | AttributeError (name : string)
  | NotImplementedError (msg : string).

(** [d[key]] *)
Fixpoint lookup_key (key : string) (entries : list (string * json)) : option json :=
  match entries with
  | [] => None
  | (k, v) :: rest => if String.eqb k key then Some v else lookup_key key rest
  end.

Definition getitem (d : json) (key : string) : result exn json :=
  match d with
  | JDict entries =>
      match lookup_key key entries with
      | Some v => Ok v
      | None => Raise (KeyError key)
      end
  | JList _ => Raise (TypeError "list indices must be integers or slices, not str")
  | JString _ => Raise (TypeError "string indices must be integers")
  | _ => Raise (TypeError "object is not subscriptable")
  end.

(** The values that [for x in v] visits. *)
Definition iterate (v : json) : result exn (list json) :=
  match v with
  | JList xs => Ok xs
  | JString s => Ok (map (λ c, JString (String c EmptyString)) (list_ascii_of_string s))
  | JDict entries => Ok (map (λ entry, JString entry.1) entries)
  | _ => Raise (TypeError "object is not iterable")
  end.

(** A comprehension [f(x) for x in xs]: the values in order, or the first
    exception. *)
Fixpoint comprehension {A B} (f : A → result exn B) (xs : list A) : result exn (list B) :=
  match xs with
  | [] => Ok []
  | x :: rest =>
      match f x with
      | Ok y => match comprehension f rest with
                | Ok ys => Ok (y :: ys)
                | Raise e => Raise e
                end
      | Raise e => Raise e
      end
  end.

Section spec.
(** [BuildTargetIdentifier] of [pants.bsp.spec.base], and its
    [from_json_dict] and [to_json_dict]. *)
Context {BuildTargetIdentifier : Type}.
Context (identifier_from_json_dict : json → result exn BuildTargetIdentifier).
Context (identifier_to_json_dict : BuildTargetIdentifier → result exn json).

Record PythonOptionsParams := { targets : list BuildTargetIdentifier }.

Definition params_from_json_dict (d : json) : result exn PythonOptionsParams :=
  v ← getitem d "targets";
  xs ← iterate v;
  ts ← comprehension identifier_from_json_dict xs;
  mret {| targets := ts |}.

Definition params_to_json_dict (p : PythonOptionsParams) : result exn json :=
  xs ← comprehension identifier_to_json_dict (targets p);
  mret (JDict [("targets", JList xs)]).

Record PythonOptionsItem := { target : BuildTargetIdentifier; linkopts : list string }.

(** [self.options]: the dataclass has the fields [target] and [linkopts]
    and no attribute of that name. *)
Definition item_options (item : PythonOptionsItem) : result exn json :=
  Raise (AttributeError "options").

Definition item_to_json_dict (item : PythonOptionsItem) : result exn json :=
  t ← identifier_to_json_dict (target item);
  options ← item_options item;
  mret (JDict [("target", t); ("linkopts", options)]).

Record PythonOptionsResult := { items : list PythonOptionsItem }.

Definition result_to_json_dict (r : PythonOptionsResult) : result exn json :=
  xs ← comprehension item_to_json_dict (items r);
  mret (JDict [("items", JList xs)]).

(** [rules.py] *)

Definition handle_bsp_python_options_request (bsp_target_id : BuildTargetIdentifier)
    : PythonOptionsItem :=
  {| target := bsp_target_id; linkopts := [] |}.

Definition bsp_python_options_request (request : PythonOptionsParams) : PythonOptionsResult :=
  {| items := map handle_bsp_python_options_request (targets request) |}.

End spec.

(** An identifier type for examples: a URI string, written as the
    dictionary with the key [uri]. The class [BuildTargetIdentifier] itself
    is a parameter of the section above. *)
Definition uri_from_json_dict (d : json) : result exn string :=
  v ← getitem d "uri";
  match v with
  | JString s => Ok s
  | _ => Raise (TypeError "uri is not a string")
  end.

Definition uri_to_json_dict (uri : string) : result exn json :=
  Ok (JDict [("uri", JString uri)]).

End Bsp.
(** * Properties *)

(** ** Merging maps with [_safe_update] *)

Section safe_update_facts.
Context `{Countable K} {V : Type} `{EqDecision V}.
Implicit Types (d acc m r : gmap K V) (items : list (K * V)) (ms : list (gmap K V)).

Lemma safe_update_raises_beep d items e :
  _safe_update d items = Raise e → e = ValueError "Beep".
Proof.
  revert d. induction items as [|[k v] rest IH]; intros d; simpl; [done|].
  destruct (d !! k) as [v'|]; [|by apply IH].
  destruct (decide (v' = v)); [by apply IH|]. by intros [= <-].
Qed.

Lemma agree_cons_inv d k v rest :
  k ∉ rest.*1 → agree d ((k, v) :: rest) → agree (<[k:=v]> d) rest.
Proof.
  intros Hk Hag k' v1 v2 Hin Hlook.
  assert (k ≠ k') as Hne.
  { intros ->. apply Hk. apply list_elem_of_fmap. by exists (k', v1). }
  rewrite lookup_insert_ne in Hlook by done.
  eapply Hag; [|done]. by right.
Qed.

Lemma safe_update_ok d items :
  NoDup items.*1 → agree d items →
  _safe_update d items = Ok (list_to_map items ∪ d).
Proof.
  revert d. induction items as [|[k v] rest IH]; intros d Hnd Hag; simpl.
  { by rewrite (left_id_L ∅ (∪)). }
  apply NoDup_cons in Hnd as [Hk Hnd].
  assert (_safe_update (<[k:=v]> d) rest = Ok (<[k:=v]> (list_to_map rest) ∪ d)) as Hstep.
  { rewrite IH; [|done|by apply agree_cons_inv]. f_equal.
    rewrite <-insert_union_l. symmetry. apply insert_union_r.
    by apply not_elem_of_list_to_map_1. }
  destruct (d !! k) as [v'|] eqn:Hd; [|done].
  rewrite decide_True; [done|]. eapply Hag; [|done]. by left.
Qed.

Lemma safe_update_ok_inv d items r :
  NoDup items.*1 → _safe_update d items = Ok r → agree d items.
Proof.
  revert d. induction items as [|[k v] rest IH]; intros d Hnd Hok.
  { intros ? ? ? Hin. by apply elem_of_nil in Hin. }
  apply NoDup_cons in Hnd as [Hk Hnd]. simpl in Hok.
  assert (d !! k = None ∨ d !! k = Some v) as Hhead.
  { destruct (d !! k) as [v'|]; [|by left].
    destruct (decide (v' = v)) as [->|]; [by right|done]. }
  assert (_safe_update (<[k:=v]> d) rest = Ok r) as Hrest.
  { destruct (d !! k) as [v'|]; [|done]. by destruct (decide (v' = v)). }
  specialize (IH _ Hnd Hrest).
  intros k' v1 v2 [[= -> ->]|Hin]%elem_of_cons Hlook.
  - destruct Hhead as [Hn|Hs]; congruence.
  - assert (k ≠ k') as Hne.
    { intros ->. apply Hk. apply list_elem_of_fmap. by exists (k', v1). }
    eapply IH; [done|]. by rewrite lookup_insert_ne.
Qed.

Lemma agree_map_to_list d m : agree d (map_to_list m) ↔ maps_agree d m.
Proof.
  split; intros Hag k v v' Hm Hd.
  - eapply Hag; [|done]. by apply elem_of_map_to_list.
  - eapply Hag; [|done]. by apply elem_of_map_to_list.
Qed.

Lemma safe_update_map_ok d m :
  maps_agree d m → _safe_update d (map_to_list m) = Ok (m ∪ d).
Proof.
  intros Hag. rewrite safe_update_ok.
  - by rewrite list_to_map_to_list.
  - apply NoDup_fst_map_to_list.
  - by apply agree_map_to_list.
Qed.

Lemma safe_update_map_inv d m r :
  _safe_update d (map_to_list m) = Ok r → maps_agree d m ∧ r = m ∪ d.
Proof.
  intros Hok.
  assert (maps_agree d m) as Hag.
  { apply agree_map_to_list. eapply safe_update_ok_inv; [|done].
    apply NoDup_fst_map_to_list. }
  split; [done|]. rewrite safe_update_map_ok in Hok by done. congruence.
Qed.

Lemma merge_into_raises_beep acc ms e :
  merge_into acc ms = Raise e → e = ValueError "Beep".
Proof.
  revert acc. induction ms as [|m rest IH]; intros acc; simpl; [done|].
  destruct (_safe_update acc (map_to_list m)) as [acc'|e'] eqn:Hupd.
  - apply IH.
  - intros [= <-]. by eapply safe_update_raises_beep.
Qed.

Lemma compatible_cons_union acc m rest :
  compatible (acc :: m :: rest) → compatible ((m ∪ acc) :: rest).
Proof.
  intros Hc m1 m2 k v1 v2 Hm1 Hm2 H1 H2.
  assert (∀ m' v, m' ∈ (m ∪ acc) :: rest → m' !! k = Some v →
            ∃ m'', m'' ∈ acc :: m :: rest ∧ m'' !! k = Some v) as Hsrc.
  { intros m' v [->|Hin]%elem_of_cons Hl.
    - apply lookup_union_Some_raw in Hl as [Hl|[_ Hl]].
      + exists m. split; [|done]. right. by left.
      + exists acc. split; [by left|done].
    - exists m'. split; [|done]. right. by right. }
  destruct (Hsrc _ _ Hm1 H1) as (m1' & ? & ?).
  destruct (Hsrc _ _ Hm2 H2) as (m2' & ? & ?).
  by eapply (Hc m1' m2').
Qed.

Lemma compatible_union_cons acc m rest :
  maps_agree acc m → compatible ((m ∪ acc) :: rest) → compatible (acc :: m :: rest).
Proof.
  intros Hag Hc m1 m2 k v1 v2 Hm1 Hm2 H1 H2.
  assert (∀ m' v, m' ∈ acc :: m :: rest → m' !! k = Some v →
            ∃ m'', m'' ∈ (m ∪ acc) :: rest ∧ m'' !! k = Some v) as Hsrc.
  { intros m' v Hin Hl.
    apply elem_of_cons in Hin as [->|Hin].
    - exists (m ∪ acc). split; [by left|].
      apply lookup_union_Some_raw.
      destruct (m !! k) as [w|] eqn:Hm; [|by right].
      left. f_equal. symmetry. by eapply Hag.
    - apply elem_of_cons in Hin as [->|Hin].
      + exists (m ∪ acc). split; [by left|].
        apply lookup_union_Some_raw. by left.
      + exists m'. split; [by right|done]. }
  destruct (Hsrc _ _ Hm1 H1) as (m1' & ? & ?).
  destruct (Hsrc _ _ Hm2 H2) as (m2' & ? & ?).
  by eapply (Hc m1' m2').
Qed.

Lemma merge_into_ok acc ms :
  compatible (acc :: ms) →
  ∃ r, merge_into acc ms = Ok r
       ∧ ∀ k v, r !! k = Some v ↔ ∃ m, m ∈ acc :: ms ∧ m !! k = Some v.
Proof.
  revert acc. induction ms as [|m rest IH]; intros acc Hc; simpl.
  { exists acc. split; [done|]. intros k v. split.
    - intros Hl. exists acc. split; [by left|done].
    - intros (m & Hin & Hl). apply list_elem_of_singleton in Hin. by subst. }
  assert (maps_agree acc m) as Hag.
  { intros k v v' Hm Hacc. eapply (Hc acc m); [by left|right; by left|done..]. }
  rewrite safe_update_map_ok by done.
  destruct (IH (m ∪ acc)) as (r & Hr & Hlook); [by apply compatible_cons_union|].
  exists r. split; [done|]. intros k v. rewrite Hlook. split.
  - intros (m' & [->|Hin]%elem_of_cons & Hl).
    + apply lookup_union_Some_raw in Hl as [Hl|[_ Hl]].
      * exists m. split; [right; by left|done].
      * exists acc. split; [by left|done].
    + exists m'. split; [right; by right|done].
  - intros (m' & Hin & Hl).
    apply elem_of_cons in Hin as [->|Hin].
    + exists (m ∪ acc). split; [by left|]. apply lookup_union_Some_raw.
      destruct (m !! k) as [w|] eqn:Hm; [|by right].
      left. f_equal. symmetry. by eapply Hag.
    + apply elem_of_cons in Hin as [->|Hin].
      * exists (m ∪ acc). split; [by left|]. apply lookup_union_Some_raw. by left.
      * exists m'. split; [by right|done].
Qed.

Lemma merge_into_ok_inv acc ms r :
  merge_into acc ms = Ok r → compatible (acc :: ms).
Proof.
  revert acc. induction ms as [|m rest IH]; intros acc; simpl.
  { intros _ m1 m2 k v1 v2 ->%list_elem_of_singleton ->%list_elem_of_singleton. congruence. }
  destruct (_safe_update acc (map_to_list m)) as [acc'|e] eqn:Hupd; [|done].
  apply safe_update_map_inv in Hupd as [Hag ->].
  intros Hok. apply compatible_union_cons; [done|]. by eapply IH.
Qed.

Lemma compatible_empty_cons ms : compatible (∅ :: ms) ↔ compatible ms.
Proof.
  split; intros Hc m1 m2 k v1 v2 Hm1 Hm2 H1 H2.
  - eapply (Hc m1 m2); [by right|by right|done..].
  - apply elem_of_cons in Hm1 as [->|Hm1]; [by rewrite lookup_empty in H1|].
    apply elem_of_cons in Hm2 as [->|Hm2]; [by rewrite lookup_empty in H2|].
    by eapply (Hc m1 m2).
Qed.

Lemma compatible_perm ms ms' : ms ≡ₚ ms' → compatible ms → compatible ms'.
Proof.
  intros Hp Hc m1 m2 k v1 v2 Hm1 Hm2. apply (Hc m1 m2); by rewrite Hp.
Qed.

Lemma merge_maps_ok ms :
  compatible ms →
  ∃ r, merge_maps ms = Ok r ∧ ∀ k v, r !! k = Some v ↔ ∃ m, m ∈ ms ∧ m !! k = Some v.
Proof.
  intros Hc. destruct (merge_into_ok ∅ ms) as (r & Hr & Hlook).
  { by apply compatible_empty_cons. }
  exists r. split; [done|]. intros k v. rewrite Hlook. split.
  - intros (m & [->|Hin]%elem_of_cons & Hl); [by rewrite lookup_empty in Hl|]. by exists m.
  - intros (m & Hin & Hl). exists m. split; [by right|done].
Qed.

Lemma merge_maps_ok_inv ms r : merge_maps ms = Ok r → compatible ms.
Proof. intros Hok. apply compatible_empty_cons. by eapply merge_into_ok_inv. Qed.

End safe_update_facts.

(** C1. Merging any finite collection of maps with [_safe_update] (the
    immutable-input-digest maps and the append-only-cache maps alike)
    succeeds exactly when no key is bound to two unequal values across the
    maps; on success the result is the key-wise union; and both the outcome
    and the resulting map are the same for every order of the maps. A key
    bound to equal values in two maps is not a conflict. *)
Theorem merge_maps_order_independent `{Countable K} {V : Type} `{EqDecision V}
    (ms : list (gmap K V)) :
  (is_ok (merge_maps ms) = true ↔ compatible ms)
  ∧ (∀ r, merge_maps ms = Ok r →
       ∀ k v, r !! k = Some v ↔ ∃ m, m ∈ ms ∧ m !! k = Some v)
  ∧ (∀ ms', ms ≡ₚ ms' → merge_maps ms' = merge_maps ms).
Proof.
  split; [|split].
  - split.
    + destruct (merge_maps ms) as [r|e] eqn:Hm; [|done].
      intros _. by eapply merge_maps_ok_inv.
    + intros Hc. destruct (merge_maps_ok ms Hc) as (r & -> & _). done.
  - intros r Hr.
    destruct (merge_maps_ok ms (merge_maps_ok_inv _ _ Hr)) as (r' & Hr' & Hl).
    by replace r with r' by congruence.
  - intros ms' Hp.
    destruct (merge_maps ms) as [r|e] eqn:Hm.
    + pose proof (merge_maps_ok_inv _ _ Hm) as Hc.
      destruct (merge_maps_ok ms Hc) as (r1 & Hr1 & Hl1).
      destruct (merge_maps_ok ms' (compatible_perm _ _ Hp Hc)) as (r2 & -> & Hl2).
      f_equal. replace r with r1 by congruence.
      apply map_eq. intros k. apply option_eq. intros v.
      rewrite Hl1, Hl2. by setoid_rewrite Hp.
    + destruct (merge_maps ms') as [r'|e'] eqn:Hm'.
      * pose proof (merge_maps_ok_inv _ _ Hm') as Hc.
        symmetry in Hp.
        destruct (merge_maps_ok ms (compatible_perm _ _ Hp Hc)) as (r1 & Hr1 & _).
        congruence.
      * apply merge_into_raises_beep in Hm, Hm'. by subst.
Qed.

(** ** The loop of [_resolve_runnable_dependencies] *)

Lemma merge_environments_raises st r e :
  merge_environments st r = Raise e → e = ValueError incompatible_environments.
Proof.
  unfold merge_environments.
  destruct (_safe_update (immutable_input_digests st) _) as [iid|e1] eqn:H1; simpl.
  - destruct (_safe_update (append_only_caches st) _) as [aoc|e2] eqn:H2; simpl; [done|].
    apply safe_update_raises_beep in H2 as ->. by intros [= <-].
  - apply safe_update_raises_beep in H1 as ->. by intros [= <-].
Qed.

Lemma merge_environments_ok st r iid aoc :
  merge_environments st r = Ok (iid, aoc) ↔
  _safe_update (immutable_input_digests st)
    (map_to_list (extra_immutable_input_digests r)) = Ok iid
  ∧ _safe_update (append_only_caches st)
      (map_to_list (extra_append_only_caches r)) = Ok aoc.
Proof.
  unfold merge_environments.
  destruct (_safe_update (immutable_input_digests st) _) as [iid'|e1] eqn:H1; simpl.
  - destruct (_safe_update (append_only_caches st) _) as [aoc'|e2] eqn:H2; simpl.
    + split; [by intros [= <- <-]|by intros [[= <-] [= <-]]].
    + split; [by destruct e2|by intros [_ ?]].
  - split; [by destruct e1|by intros [? _]].
Qed.

Lemma collect_raises bash pairs st e :
  collect bash pairs st = Raise e → e = ValueError incompatible_environments.
Proof.
  revert st. induction pairs as [|[dep r] rest IH]; intros st; simpl; [done|].
  destruct (merge_environments st r) as [[iid aoc]|e'] eqn:Hm.
  - apply IH.
  - intros [= <-]. by eapply merge_environments_raises.
Qed.

(** What a successful run of the loop has accumulated. *)
Lemma collect_ok_inv bash pairs st st' :
  collect bash pairs st = Ok st' →
  merge_into (immutable_input_digests st)
    (map (λ p, extra_immutable_input_digests p.2) pairs) = Ok (immutable_input_digests st')
  ∧ merge_into (append_only_caches st)
      (map (λ p, extra_append_only_caches p.2) pairs) = Ok (append_only_caches st')
  ∧ shims st' = shims st ++ map (λ p, shim_file bash p.1 p.2) pairs
  ∧ digests st' = digests st ++ map (λ p, RunInSandboxRequest.digest p.2) pairs.
Proof.
  revert st. induction pairs as [|[dep r] rest IH]; intros st; simpl.
  { intros [= <-]. by rewrite !app_nil_r. }
  destruct (merge_environments st r) as [[iid aoc]|e'] eqn:Hm; [|done].
  apply merge_environments_ok in Hm as [-> ->].
  intros (Hi & Ha & Hs & Hd)%IH. simpl in *.
  by rewrite Hs, Hd, <-!app_assoc.
Qed.

Lemma collect_ok bash pairs st iid aoc :
  merge_into (immutable_input_digests st)
    (map (λ p, extra_immutable_input_digests p.2) pairs) = Ok iid →
  merge_into (append_only_caches st)
    (map (λ p, extra_append_only_caches p.2) pairs) = Ok aoc →
  collect bash pairs st =
    Ok {| digests := digests st ++ map (λ p, RunInSandboxRequest.digest p.2) pairs;
          shims := shims st ++ map (λ p, shim_file bash p.1 p.2) pairs;
          immutable_input_digests := iid;
          append_only_caches := aoc |}.
Proof.
  revert st. induction pairs as [|[dep r] rest IH]; intros st; simpl.
  { intros [= <-] [= <-]. rewrite !app_nil_r. by destruct st. }
  destruct (_safe_update (immutable_input_digests st) _) as [iid'|] eqn:H1; [|done].
  destruct (_safe_update (append_only_caches st) _) as [aoc'|] eqn:H2; [|done].
  intros Hi Ha.
  assert (merge_environments st r = Ok (iid', aoc')) as -> by by apply merge_environments_ok.
  erewrite IH; [|exact Hi|exact Ha]. simpl. by rewrite <-!app_assoc.
Qed.

Lemma collect_ok_compatible bash pairs st' :
  collect bash pairs nothing_collected = Ok st' →
  compatible (map (λ p, extra_immutable_input_digests p.2) pairs)
  ∧ compatible (map (λ p, extra_append_only_caches p.2) pairs).
Proof.
  intros (Hi & Ha & _)%collect_ok_inv. simpl in *.
  split; by eapply merge_maps_ok_inv.
Qed.

Lemma disagree_not_collected bash pairs dep1 r1 dep2 r2 :
  (dep1, r1) ∈ pairs → (dep2, r2) ∈ pairs → disagree r1 r2 →
  collect bash pairs nothing_collected = Raise (ValueError incompatible_environments).
Proof.
  intros H1 H2 Hd.
  destruct (collect bash pairs nothing_collected) as [st'|e] eqn:Hc.
  - exfalso. apply collect_ok_compatible in Hc as [Hi Ha].
    destruct Hd as [(k & v1 & v2 & Hl1 & Hl2 & Hne)|(k & v1 & v2 & Hl1 & Hl2 & Hne)];
      apply Hne.
    + eapply (Hi _ _ k); [| |exact Hl1|exact Hl2]; apply list_elem_of_fmap;
        [by exists (dep1, r1)|by exists (dep2, r2)].
    + eapply (Ha _ _ k); [| |exact Hl1|exact Hl2]; apply list_elem_of_fmap;
        [by exists (dep1, r1)|by exists (dep2, r2)].
  - f_equal. by eapply collect_raises.
Qed.

(** C4, at a failing input. The run specifications [fmt_jdk11] and
    [lint_jdk17] bind the key [jdk] to two digests, and the loop raises the
    [ValueError] naming mutually incompatible environments when both are
    bound to [runnables]. From [_resolve_runnable_dependencies] they never
    are: for the two declarations [fmt] and [lint] one run request is made,
    for the one element of [fspt], and whatever the engine answers to it,
    an exception or a run specification, the resolution propagates the
    exception or returns a merged digest and a [RunnableDependencies] value
    holding the wrapper script [fmt] alone. No answer makes the code
    compare the environments of two dependencies. *)
Theorem disagreeing_declarations_are_not_detected :
  disagree fmt_jdk11 lint_jdk17
  ∧ resolve_from_runnables (sample_engine fmt_spec 0) sample_bash
      [fmt_declaration; lint_declaration] [fmt_jdk11; lint_jdk17]
    = Raise (ValueError incompatible_environments)
  ∧ ∀ answer : result exn RunInSandboxRequest.t,
      _resolve_runnable_dependencies
        (with_run_in_sandbox_request (sample_engine fmt_spec 0) (λ _, answer))
        sample_bash [fmt_declaration; lint_declaration] sample_address "the target"
      = match answer with
        | Raise e => Raise e
        | Ok r =>
            Ok (digest_of (fingerprint (RunInSandboxRequest.digest r)),
                {| RunnableDependencies.path_component := "shims_fmt";
                   RunnableDependencies.immutable_input_digests :=
                     <["shims_fmt" := digest_of "fmt"]> (extra_immutable_input_digests r);
                   RunnableDependencies.append_only_caches :=
                     extra_append_only_caches r |})
        end.
Proof.
  split; [|split].
  - left. exists "jdk", (digest_of "jdk11"), (digest_of "jdk17").
    split; [reflexivity|]. split; [reflexivity|]. intros [=].
  - unfold resolve_from_runnables.
    rewrite (disagree_not_collected sample_bash _
               fmt_declaration fmt_jdk11 lint_declaration lint_jdk17).
    + reflexivity.
    + simpl. left.
    + simpl. right. left.
    + left. exists "jdk", (digest_of "jdk11"), (digest_of "jdk17").
      split; [reflexivity|]. split; [reflexivity|]. intros [=].
  - intros [r|e]; [|reflexivity].
    assert (merge_environments nothing_collected r
            = Ok (extra_immutable_input_digests r ∪ ∅, extra_append_only_caches r ∪ ∅))
      as Hm.
    { apply merge_environments_ok. simpl.
      split; apply safe_update_map_ok; intros k v v' _ Hl; by rewrite lookup_empty in Hl. }
    change (_resolve_runnable_dependencies _ _ _ _ _)
      with (resolve_from_runnables
              (with_run_in_sandbox_request (sample_engine fmt_spec 0) (λ _, Ok r))
              sample_bash [fmt_declaration; lint_declaration] [r]).
    unfold resolve_from_runnables.
    change (collect sample_bash (zip [fmt_declaration; lint_declaration] [r])
              nothing_collected)
      with (match merge_environments nothing_collected r with
            | Ok (iid, aoc) =>
                Ok {| digests := [RunInSandboxRequest.digest r];
                      shims := [shim_file sample_bash fmt_declaration r];
                      immutable_input_digests := iid; append_only_caches := aoc |}
            | Raise e => Raise e
            end).
    rewrite Hm. rewrite !(right_id_L ∅ (∪)). reflexivity.
Qed.



(** ** Working directories *)

Lemma startswith_app (p s : string) : Py.startswith (p +:+ s) p = true.
Proof.
  induction p as [|c p IH]; simpl; [reflexivity|].
  by rewrite Ascii.eqb_refl.
Qed.

Lemma join_relative (a b : string) :
  Py.startswith b "/" = false →
  OsPath.join a b = a +:+ b
  ∨ OsPath.join a b = a +:+ "/" +:+ b.
Proof.
  intros Hb. unfold OsPath.join. rewrite Hb.
  destruct (negb (Py.truthy a) || Py.endswith_char a "/"); [by left|by right].
Qed.

Lemma app_cons (x : ascii) (a b : string) : String x a +:+ b = String x (a +:+ b).
Proof. reflexivity. Qed.

Lemma app_empty (b : string) : "" +:+ b = b.
Proof. reflexivity. Qed.

Lemma startswith_split (s p q : string) :
  Py.startswith s (p +:+ q)
  = Py.startswith s p && Py.startswith (Py.slice_from (String.length p) s) q.
Proof.
  revert s. induction p as [|c p IH]; intros s.
  - rewrite app_empty. simpl. done.
  - rewrite app_cons. destruct s as [|a s]; simpl.
    + by destruct q.
    + rewrite IH. by rewrite andb_assoc.
Qed.

Lemma join_is_relative (a b : string) :
  Py.startswith a "/" = false → Py.startswith b "/" = false →
  Py.startswith (OsPath.join a b) "/" = false.
Proof.
  intros Ha Hb. unfold OsPath.join. rewrite Hb.
  destruct a as [|c a]; [done|].
  destruct (negb _ || _); rewrite ?app_cons; simpl in *; done.
Qed.

(** The claim at two failing inputs: of two leading separators one is
    stripped, and [./] followed by a path that starts with the separator is
    joined to that path itself, so [//etc] and [.//etc] are resolved to
    [/etc]; a process with that working directory is run by
    [cd /etc && ...] and its declared output [out] is collected at
    [/etc/out]. *)
Lemma double_separator_stays_absolute :
  _parse_relative_directory "//etc" (inl sample_address) = "/etc"
  ∧ _parse_relative_directory ".//etc" (inl sample_address) = "/etc"
  ∧ Py.startswith "/etc" "/" = true
  ∧ (process ← prepare_adhoc_process (sample_engine fmt_spec 0)
                 (request_in "//etc" ".") sample_bash;
     mret (Process.argv process, Process.output_directories process))
    = Ok (["/bin/bash"; "-c"; "cd /etc && echo hi"], ["/etc/out"]).
Proof. repeat split; reflexivity. Qed.

(** C6, as the code has it. [_parse_relative_directory] resolves ["."] to
    the source directory of the owning address, ["./x"] to that directory
    joined with [x], a string that starts with the separator to the same
    string without its first character, and any other string to itself.
    Joined means [os.path.join]: [d/x] for a non-empty directory [d] that
    does not end with a separator and an [x] that does not start with one.
    One separator is stripped, not all of them: for an owning address whose
    source directory does not start with the separator, the resolved
    directory starts with the separator exactly when the string starts with
    [//] or with [.//]. *)
Theorem parse_relative_directory_cases (address : Address) :
  _parse_relative_directory "." (inl address) = spec_path address
  ∧ (∀ x, _parse_relative_directory ("./" +:+ x) (inl address)
          = OsPath.join (spec_path address) x)
  ∧ (∀ x, Py.startswith x "/" = false →
          Py.truthy (spec_path address) = true →
          Py.endswith_char (spec_path address) "/" = false →
          _parse_relative_directory ("./" +:+ x) (inl address)
          = spec_path address +:+ "/" +:+ x)
  ∧ (∀ s, _parse_relative_directory ("/" +:+ s) (inl address) = s)
  ∧ (∀ w, w ≠ "." → Py.startswith w "./" = false → Py.startswith w "/" = false →
          _parse_relative_directory w (inl address) = w)
  ∧ (Py.startswith (spec_path address) "/" = false →
     ∀ w, Py.startswith (_parse_relative_directory w (inl address)) "/"
          = Py.startswith w "//" || Py.startswith w ".//").
Proof.
  split; [reflexivity|]. split; [intros x; reflexivity|]. split.
  { intros x Hx Ht He.
    change (_parse_relative_directory ("./" +:+ x) (inl address))
      with (OsPath.join (spec_path address) x).
    unfold OsPath.join. by rewrite Hx, Ht, He. }
  split; [intros s; reflexivity|]. split.
  { intros w Hw H1 H2. unfold _parse_relative_directory.
    rewrite H1, H2.
    destruct (String.eqb_spec w "."); [done|done]. }
  intros Hbase w. unfold _parse_relative_directory.
  destruct (String.eqb_spec w ".") as [->|Hne]; [by rewrite Hbase|].
  change ".//" with ("./" +:+ "/"). rewrite (startswith_split w "./" "/").
  change "//" with ("/" +:+ "/"). rewrite (startswith_split w "/" "/").
  change (String.length "./") with 2. change (String.length "/") with 1.
  destruct (Py.startswith w "./") eqn:Hdot.
  - assert (Py.startswith w "/" = false) as ->.
    { destruct w as [|a w']; [done|]. simpl in *.
      apply andb_true_iff in Hdot as [Ha _]. apply Ascii.eqb_eq in Ha as ->. done. }
    rewrite andb_false_l, orb_false_l, andb_true_l.
    destruct (Py.startswith (Py.slice_from 2 w) "/") eqn:Hrest.
    + unfold OsPath.join. by rewrite Hrest.
    + by apply join_is_relative.
  - destruct (Py.startswith w "/") eqn:Hslash.
    + by rewrite andb_true_l, andb_false_l, orb_false_r.
    + done.
Qed.

(** ** Rewriting a process to run at the build root *)

(** The scenario as the code runs it: the working directory [src/app] has
    only characters that [shlex.quote] leaves alone, so the shell string is
    [cd src/app && echo hi] and not [cd 'src/app' && echo hi]; and the
    declared output [/tmp/out.txt], which starts with the separator, is kept
    as it is by [os.path.join] instead of being prefixed. *)
Lemma echo_process_is_not_quoted :
  Process.argv (_output_at_build_root echo_process sample_bash)
    = ["/bin/bash"; "-c"; "cd src/app && echo hi"]
  ∧ String.eqb "cd src/app && echo hi" "cd 'src/app' && echo hi" = false
  ∧ Process.output_files (_output_at_build_root echo_process sample_bash)
    = ["src/app/out.txt"; "/tmp/out.txt"]
  ∧ Py.startswith "/tmp/out.txt" "src/app" = false.
Proof. repeat split; reflexivity. Qed.

(** C7, as the code has it. For a process with a non-empty working
    directory [w], [_output_at_build_root] replaces the argv by the shell
    path, [-c] and the string [cd q(w) && q(a1) ... q(an)], where [q] is
    [shlex.quote] (which returns a non-empty string of safe characters
    as it is, without quotes), clears the working-directory field, and maps
    every declared output file and directory [d] to [os.path.join(w, d)]:
    [w] followed by [d], with a separator between them unless [w] ends with
    one, when [d] does not start with the separator, and [d] itself when it
    does. For [src/app] and [echo hi] the shell string is
    [cd src/app && echo hi]. *)
Theorem output_at_build_root_rewrite (process : Process.t) (bash : BashBinary) (w : string) :
  Process.working_directory process = Some w →
  w ≠ "" →
  Process.argv (_output_at_build_root process bash)
    = [bash_path bash; "-c";
       ("cd " +:+ Shlex.quote w +:+ " && ")
         +:+ Py.join " " (map Shlex.quote (Process.argv process))]
  ∧ Process.working_directory (_output_at_build_root process bash) = None
  ∧ Process.output_files (_output_at_build_root process bash)
    = map (OsPath.join w) (Process.output_files process)
  ∧ Process.output_directories (_output_at_build_root process bash)
    = map (OsPath.join w) (Process.output_directories process)
  ∧ (∀ d, Py.startswith d "/" = false →
          OsPath.join w d = w +:+ d ∨ OsPath.join w d = w +:+ "/" +:+ d)
  ∧ (∀ d, Py.startswith d "/" = true → OsPath.join w d = d)
  ∧ ("cd " +:+ Shlex.quote "src/app" +:+ " && ")
      +:+ Py.join " " (map Shlex.quote ["echo"; "hi"])
    = "cd src/app && echo hi".
Proof.
  intros Hw Hne.
  assert (Py.truthy w = true) as Ht by by destruct w.
  split; [|split; [|split; [|split]]].
  - unfold _output_at_build_root. rewrite Hw. simpl. by rewrite Ht.
  - done.
  - unfold _output_at_build_root. rewrite Hw. simpl. by rewrite Ht.
  - unfold _output_at_build_root. rewrite Hw. simpl. by rewrite Ht.
  - split; [|split; [|reflexivity]].
    + intros d Hd. by apply join_relative.
    + intros d Hd. unfold OsPath.join. by rewrite Hd.
Qed.

Lemma output_at_build_root_rewrite_witness :
  Process.argv (_output_at_build_root echo_process sample_bash)
    = ["/bin/bash"; "-c";
       ("cd " +:+ Shlex.quote "src/app" +:+ " && ")
         +:+ Py.join " " (map Shlex.quote ["echo"; "hi"])].
Proof.
  apply (output_at_build_root_rewrite echo_process sample_bash "src/app").
  - reflexivity.
  - intros [=].
Defined.

(** ** Choosing what to run *)

(** C2, at a failing input. Target [a] satisfies exactly one primary field
    set and also has a secondary one; target [b] has a secondary field set
    only. Visiting [a] first, the loop compares the secondary field sets of
    the two targets and raises [TooManyTargetsException]: the primary field
    set of [a] is not returned. *)
Theorem one_primary_not_returned :
  Run.rank [primary_field_set "main"; secondary_field_set "entry_point"]
    = {| Run.primary := [primary_field_set "main"];
         Run.secondary := [secondary_field_set "entry_point"] |}
  ∧ Run.primary (Run.rank [secondary_field_set "entry_point"]) = []
  ∧ Run._find_what_to_run a_then_b "the `run` goal"
    = Raise (Run.TooManyTargetsException a_then_b "the `run` goal").
Proof. repeat split; reflexivity. Qed.

(** C3, at a failing input. The same two targets, of which only [a] has a
    primary field set: visited as [b], [a] the target [a] replaces [b] and
    its primary field set is returned; visited as [a], [b] the target [b],
    which has secondary field sets only, makes the resolution fail with
    [TooManyTargetsException]. *)
Theorem secondary_only_target_fails_against_primary :
  Run._find_what_to_run b_then_a "the `run` goal"
    = Ok (primary_field_set "main", target_named "a")
  ∧ Run._find_what_to_run a_then_b "the `run` goal"
    = Raise (Run.TooManyTargetsException a_then_b "the `run` goal")
  ∧ a_then_b ≡ₚ b_then_a.
Proof.
  split; [reflexivity|]. split; [reflexivity|]. apply perm_swap.
Qed.

(** ** Running an adhoc process *)


(** The block that logs the output neither raises nor loses a record when
    the output is not logged or is well-formed UTF-8. *)
Lemma output_log_decodable request res :
  AdhocProcessRequest.log_output request = false
  ∨ (Py.utf8_valid (ProcessResult.stdout res) = true
     ∧ Py.utf8_valid (ProcessResult.stderr res) = true) →
  output_log request res
  = (if AdhocProcessRequest.log_output request then
       (if Py.truthy (ProcessResult.stdout res)
        then [LogInfo (ProcessResult.stdout res)] else [])
       ++ (if Py.truthy (ProcessResult.stderr res)
           then [LogWarning (ProcessResult.stderr res)] else [])
     else [],
     None).
Proof.
  unfold output_log, decode.
  destruct (AdhocProcessRequest.log_output request); [|done].
  intros [?|[-> ->]]; [done|].
  by destruct (Py.truthy (ProcessResult.stdout res)),
       (Py.truthy (ProcessResult.stderr res)).
Qed.

(** [run_adhoc_process] returns once the engine has answered its four
    requests, when the output is not logged or is well-formed UTF-8. *)
Lemma run_adhoc_process_completes E bash request process f result adjusted :
  prepare_adhoc_process E request bash = Ok process →
  get_fallible_process_result E process = Ok f →
  get_process_result E f (AdhocProcessRequest.description request) = Ok result →
  AdhocProcessRequest.log_output request = false
  ∨ (Py.utf8_valid (ProcessResult.stdout result) = true
     ∧ Py.utf8_valid (ProcessResult.stderr result) = true) →
  get_remove_prefix E (ProcessResult.output_digest result) (output_prefix request)
    = Ok adjusted →
  run_adhoc_process E bash request
  = (error_log request (FallibleProcessResult.exit_code f)
     ++ (if AdhocProcessRequest.log_output request then
           (if Py.truthy (ProcessResult.stdout result)
            then [LogInfo (ProcessResult.stdout result)] else [])
           ++ (if Py.truthy (ProcessResult.stderr result)
               then [LogWarning (ProcessResult.stderr result)] else [])
         else []),
     Ok {| AdhocProcessResult.process_result := result;
           AdhocProcessResult.adjusted_digest := adjusted |}).
Proof.
  intros Hp Hf Hr Hdec Hrm. unfold run_adhoc_process.
  rewrite Hp, Hf, Hr, (output_log_decodable _ _ Hdec). simpl. by rewrite Hrm.
Qed.






(** ** Wrapper scripts *)

Lemma request_runnables_one E deps owning origin rs :
  request_runnables E deps owning origin = Ok rs → length rs = 1.
Proof.
  unfold request_runnables.
  destruct (get_addresses E _ owning origin) as [addresses|]; [|done]. simpl.
  destruct (get_targets E addresses) as [targets|]; [|done]. simpl.
  destruct (get_field_sets_per_target E targets) as [x|]; [|done]. simpl.
  destruct (get_run_in_sandbox_request E x) as [r|]; [|done].
  by intros [= <-].
Qed.

Lemma collect_shims bash pairs st :
  collect bash pairs nothing_collected = Ok st →
  length (shims st) = length pairs.
Proof.
  intros (_ & _ & -> & _)%collect_ok_inv. simpl. by rewrite length_map.
Qed.

(** C8, at two failing inputs. (1) Whatever the engine answers, the run
    requests bound to [runnables] are one per element of the one-element
    tuple [fspt], so the loop over [zip(deps, runnables)] writes at most one
    wrapper script; for the two declarations [fmt] and [lint] only the
    script named [fmt] is created. (2) With two extra environment variables
    the interpolated template has a line without indentation, [dedent]
    removes nothing, and the script starts with eight spaces instead of the
    shebang. *)
Theorem shim_builder_misses_declarations :
  (∀ (E : Engine) (bash : BashBinary) deps owning origin,
      match request_runnables E deps owning origin with
      | Ok rs =>
          match collect bash (zip deps rs) nothing_collected with
          | Ok st => length (shims st) <= 1
          | Raise _ => True
          end
      | Raise _ => True
      end)
  ∧ match request_runnables (sample_engine fmt_spec 0)
            [fmt_declaration; lint_declaration] sample_address "the target" with
    | Ok rs =>
        match collect sample_bash (zip [fmt_declaration; lint_declaration] rs)
                nothing_collected with
        | Ok st => map path (shims st) = ["fmt"]
        | Raise _ => False
        end
    | Raise _ => False
    end
  ∧ _runnable_dependency_shim "/bin/bash" ["/bin/fmt"; "-w"] [("X", "1"); ("Y", "2")]
    = "        #!/bin/bash" +:+ Py.nl
      +:+ "        export X=1" +:+ Py.nl
      +:+ "export Y=2" +:+ Py.nl
      +:+ "        exec /bin/fmt -w " +:+ Py.dq +:+ "$@" +:+ Py.dq +:+ Py.nl
  ∧ Py.startswith
      (_runnable_dependency_shim "/bin/bash" ["/bin/fmt"; "-w"] [("X", "1"); ("Y", "2")])
      "#!" = false.
Proof.
  split; [|split; [|split]].
  - intros E bash deps owning origin.
    destruct (request_runnables E deps owning origin) as [rs|] eqn:Hr; [|done].
    apply request_runnables_one in Hr.
    destruct (collect bash (zip deps rs) nothing_collected) as [st|] eqn:Hc; [|done].
    apply collect_shims in Hc. rewrite Hc. unfold zip.
    rewrite length_combine. lia.
  - vm_compute. reflexivity.
  - vm_compute. reflexivity.
  - vm_compute. reflexivity.
Qed.

(** The scenario of the spec: one declaration [fmt] whose run specification
    has argv [/bin/fmt -w] and no extra environment. The engine is asked
    for one digest holding one executable file, at path [fmt], made of the
    shebang line, an empty line and the [exec] line; it has no [export]
    line. *)
Theorem fmt_shim_scenario :
  _runnable_dependency_shim "/bin/bash" ["/bin/fmt"; "-w"] []
    = "#!/bin/bash" +:+ Py.nl
      +:+ Py.nl
      +:+ "exec /bin/fmt -w " +:+ Py.dq +:+ "$@" +:+ Py.dq +:+ Py.nl
  ∧ match request_runnables (sample_engine fmt_spec 0)
            [fmt_declaration] sample_address "the target" with
    | Ok rs =>
        collect sample_bash (zip [fmt_declaration] rs) nothing_collected
        = Ok {| digests := [digest_of "run"];
                shims := [ {| path := "fmt";
                              content := _runnable_dependency_shim "/bin/bash"
                                           ["/bin/fmt"; "-w"] [];
                              is_executable := true |} ];
                immutable_input_digests := ∅;
                append_only_caches := ∅ |}
    | Raise _ => False
    end.
Proof. split; vm_compute; reflexivity. Qed.

(** From the entry point the loop visits at most one pair, so its two
    [_safe_update] calls start from empty dictionaries and cannot raise:
    once the engine has answered the requests that bind [runnables], the
    loop always completes. *)
Theorem entry_point_never_detects_conflict (E : Engine) (bash : BashBinary)
    (deps : list runnable.t) (owning : Address) (origin : string) :
  match request_runnables E deps owning origin with
  | Ok rs => is_ok (collect bash (zip deps rs) nothing_collected) = true
  | Raise _ => True
  end.
Proof.
  destruct (request_runnables E deps owning origin) as [rs|] eqn:Hr; [|done].
  apply request_runnables_one in Hr.
  destruct rs as [|r [|? ?]]; try done.
  destruct deps as [|dep deps]; [done|]. simpl.
  assert (merge_environments nothing_collected r
          = Ok (extra_immutable_input_digests r ∪ ∅, extra_append_only_caches r ∪ ∅)) as ->.
  { apply merge_environments_ok. simpl.
    split; apply safe_update_map_ok; intros k v v' _ Hl; by rewrite lookup_empty in Hl. }
  by destruct deps.
Qed.

(** [run_adhoc_process] never fails on the exit code. Once the engine has
    prepared and executed the process: when the engine turns the fallible
    result into a [ProcessResult] and answers [RemovePrefix], and the output
    is not logged or is well-formed UTF-8, the result is returned, whatever
    the exit code, with the records logged in between; when the engine
    raises on the conversion, that exception is propagated after the message
    configured for the exit code was logged. The one failure of its own is
    [UnicodeDecodeError]: with [log_output] set, standard output or standard
    error that is not well-formed UTF-8 makes [decode()] raise before
    [RemovePrefix] is requested, and nothing is returned. *)
Theorem run_adhoc_process_follows_engine (E : Engine) (bash : BashBinary)
    (request : AdhocProcessRequest.t) (process : Process.t)
    (f : FallibleProcessResult.t) :
  prepare_adhoc_process E request bash = Ok process →
  get_fallible_process_result E process = Ok f →
  (∀ result adjusted,
      get_process_result E f (AdhocProcessRequest.description request) = Ok result →
      AdhocProcessRequest.log_output request = false
      ∨ (Py.utf8_valid (ProcessResult.stdout result) = true
         ∧ Py.utf8_valid (ProcessResult.stderr result) = true) →
      get_remove_prefix E (ProcessResult.output_digest result) (output_prefix request)
        = Ok adjusted →
      run_adhoc_process E bash request
      = (error_log request (FallibleProcessResult.exit_code f)
         ++ (if AdhocProcessRequest.log_output request then
               (if Py.truthy (ProcessResult.stdout result)
                then [LogInfo (ProcessResult.stdout result)] else [])
               ++ (if Py.truthy (ProcessResult.stderr result)
                   then [LogWarning (ProcessResult.stderr result)] else [])
             else []),
         Ok {| AdhocProcessResult.process_result := result;
               AdhocProcessResult.adjusted_digest := adjusted |}))
  ∧ (∀ result,
      get_process_result E f (AdhocProcessRequest.description request) = Ok result →
      AdhocProcessRequest.log_output request = true →
      Py.utf8_valid (ProcessResult.stdout result) = false →
      run_adhoc_process E bash request
      = (error_log request (FallibleProcessResult.exit_code f),
         Raise (UnicodeDecodeError (ProcessResult.stdout result))))
  ∧ (∀ result,
      get_process_result E f (AdhocProcessRequest.description request) = Ok result →
      AdhocProcessRequest.log_output request = true →
      Py.utf8_valid (ProcessResult.stdout result) = true →
      Py.utf8_valid (ProcessResult.stderr result) = false →
      run_adhoc_process E bash request
      = (error_log request (FallibleProcessResult.exit_code f)
         ++ (if Py.truthy (ProcessResult.stdout result)
             then [LogInfo (ProcessResult.stdout result)] else []),
         Raise (UnicodeDecodeError (ProcessResult.stderr result))))
  ∧ (∀ e,
      get_process_result E f (AdhocProcessRequest.description request) = Raise e →
      run_adhoc_process E bash request
      = (error_log request (FallibleProcessResult.exit_code f), Raise e))
  ∧ (∀ m,
      default ∅ (AdhocProcessRequest.log_on_process_errors request)
        !! FallibleProcessResult.exit_code f = Some m →
      m ≠ "" →
      error_log request (FallibleProcessResult.exit_code f) = [LogError m]).
Proof.
  intros Hp Hf.
  split; [|split; [|split; [|split]]].
  - intros result adjusted Hr Hdec Hrm.
    by apply (run_adhoc_process_completes E bash request process f).
  - intros result Hr Hlog Hout. unfold run_adhoc_process.
    rewrite Hp, Hf, Hr. unfold output_log, decode. rewrite Hlog, Hout.
    destruct (ProcessResult.stdout result) as [|c rest]; [done|].
    simpl. by rewrite app_nil_r.
  - intros result Hr Hlog Hout Herr. unfold run_adhoc_process.
    rewrite Hp, Hf, Hr. unfold output_log, decode. rewrite Hlog, Hout, Herr.
    destruct (ProcessResult.stderr result) as [|c rest]; [done|].
    by destruct (Py.truthy (ProcessResult.stdout result)).
  - intros e Hr. unfold run_adhoc_process. by rewrite Hp, Hf, Hr.
  - intros m Hm Hne. unfold error_log. rewrite Hm. by destruct m.
Qed.

Lemma run_adhoc_process_follows_engine_witness :
  run_adhoc_process (sample_engine fmt_spec 1) sample_bash sample_request
  = ([LogError "the command failed"],
     Ok {| AdhocProcessResult.process_result :=
             {| ProcessResult.stdout := ""; ProcessResult.stderr := "";
                ProcessResult.output_digest := digest_of "raw" |};
           AdhocProcessResult.adjusted_digest := digest_of "adjusted" |}).
Proof.
  destruct (prepare_adhoc_process (sample_engine fmt_spec 1) sample_request sample_bash)
    as [process|] eqn:Hp; [|discriminate Hp].
  destruct (run_adhoc_process_follows_engine (sample_engine fmt_spec 1) sample_bash
              sample_request process
              {| FallibleProcessResult.stdout := "";
                 FallibleProcessResult.stderr := "";
                 FallibleProcessResult.exit_code := 1;
                 FallibleProcessResult.output_digest := digest_of "raw" |})
    as (Hok & _).
  - exact Hp.
  - reflexivity.
  - rewrite (Hok {| ProcessResult.stdout := ""; ProcessResult.stderr := "";
                    ProcessResult.output_digest := digest_of "raw" |}
               (digest_of "adjusted")); [reflexivity|reflexivity|left; reflexivity|reflexivity].
Defined.

(** A root selection of a single target that has exactly one primary
    field set resolves to that field set and that target, however many
    secondary field sets the target has. *)
Theorem single_target_one_primary (target : Target) (field_sets : list RunFieldSet)
    (field_set : RunFieldSet) (goal_description : string) :
  Run.primary (Run.rank field_sets) = [field_set] →
  Run._find_what_to_run [(target, field_sets)] goal_description = Ok (field_set, target).
Proof.
  intros Hp. unfold Run._find_what_to_run. simpl in *. by rewrite Hp.
Qed.

Lemma single_target_one_primary_witness :
  Run._find_what_to_run
    [(target_named "a",
      [secondary_field_set "entry_point"; primary_field_set "main";
       secondary_field_set "script"])]
    "the `run` goal"
  = Ok (primary_field_set "main", target_named "a").
Proof.
  apply (single_target_one_primary (target_named "a")
           [secondary_field_set "entry_point"; primary_field_set "main";
            secondary_field_set "script"]
           (primary_field_set "main") "the `run` goal").
  reflexivity.
Defined.

(** ** The loop of [_find_what_to_run] *)

Section choose_target_facts.
Context (mapping : list (Target * list RunFieldSet)) (goal_description : string).
Implicit Types (items : list (Target * list RunFieldSet)) (rfs : Run.RankedFieldSets).

(** The two ways an iteration goes. *)
Lemma choose_target_step items t fss t0 r0 :
  Run.choose_target mapping goal_description ((t, fss) :: items) (Some t0) (Some r0)
  = if has_primary fss && negb (Run.nonempty (Run.primary r0)) then
      Run.choose_target mapping goal_description items (Some t) (Some (Run.rank fss))
    else if (has_primary fss && Run.nonempty (Run.primary r0))
            || (has_secondary fss && Run.nonempty (Run.secondary r0)) then
      Raise (Run.TooManyTargetsException mapping goal_description)
    else
      Run.choose_target mapping goal_description items (Some t0) (Some r0).
Proof. reflexivity. Qed.

Lemma choose_target_first items t fss pt prfs :
  pt = None ∨ prfs = None →
  Run.choose_target mapping goal_description ((t, fss) :: items) pt prfs
  = Run.choose_target mapping goal_description items (Some t) (Some (Run.rank fss)).
Proof. intros [-> | ->]; [done|by destruct pt]. Qed.

(** The loop raises nothing but [TooManyTargetsException], with the whole
    mapping. *)
Lemma choose_target_raises items pt prfs e :
  Run.choose_target mapping goal_description items pt prfs = Raise e →
  e = Run.TooManyTargetsException mapping goal_description.
Proof.
  revert pt prfs. induction items as [|[t fss] rest IH]; intros pt prfs; [done|].
  destruct pt as [t0|], prfs as [r0|];
    try (rewrite choose_target_first by auto; apply IH).
  rewrite choose_target_step.
  destruct (_ && negb _); [apply IH|].
  destruct (_ || _); [by intros [= <-]|apply IH].
Qed.

(** Once the current choice has a primary field set, a later target with a
    primary field set makes the loop raise. *)
Lemma choose_target_second_primary items t0 r0 l1 e1 l2 :
  Run.nonempty (Run.primary r0) = true →
  items = l1 ++ e1 :: l2 →
  has_primary e1.2 = true →
  Run.choose_target mapping goal_description items (Some t0) (Some r0)
  = Raise (Run.TooManyTargetsException mapping goal_description).
Proof.
  intros Hr0 -> He1. induction l1 as [|[t fss] l1 IH].
  - destruct e1 as [t1 f1]. simpl in He1. simpl app.
    rewrite choose_target_step, Hr0, He1. done.
  - simpl app. rewrite choose_target_step, Hr0, andb_false_r.
    destruct (_ || _); [done|apply IH].
Qed.

Lemma choose_target_two_primaries items pt prfs l1 e1 l2 e2 l3 :
  items = l1 ++ e1 :: l2 ++ e2 :: l3 →
  has_primary e1.2 = true →
  has_primary e2.2 = true →
  Run.choose_target mapping goal_description items pt prfs
  = Raise (Run.TooManyTargetsException mapping goal_description).
Proof.
  intros -> He1 He2. revert pt prfs.
  assert (∀ t0 r0, Run.nonempty (Run.primary r0) = true →
            Run.choose_target mapping goal_description (l2 ++ e2 :: l3) (Some t0) (Some r0)
            = Raise (Run.TooManyTargetsException mapping goal_description)) as Hrest.
  { intros t0 r0 Hr0. by eapply choose_target_second_primary. }
  induction l1 as [|[t fss] l1 IH]; intros pt prfs.
  - destruct e1 as [t1 f1]. simpl in He1. simpl app.
    destruct pt as [t0|], prfs as [r0|];
      try (rewrite choose_target_first by auto; by apply Hrest).
    rewrite choose_target_step, He1. simpl.
    destruct (Run.nonempty (Run.primary r0)) eqn:Hr0; simpl; [done|].
    by apply Hrest.
  - simpl app.
    destruct pt as [t0|], prfs as [r0|];
      try (rewrite choose_target_first by auto; apply IH).
    rewrite choose_target_step.
    destruct (_ && negb _); [apply IH|].
    destruct (_ || _); [done|apply IH].
Qed.

(** What the loop returns is its initial choice or an entry it visited. *)
Lemma choose_target_ok items pt prfs t rfs :
  Run.choose_target mapping goal_description items pt prfs = Ok (Some t, Some rfs) →
  (pt = Some t ∧ prfs = Some rfs)
  ∨ ∃ fss, (t, fss) ∈ items ∧ rfs = Run.rank fss.
Proof.
  revert pt prfs. induction items as [|[t' fss'] rest IH]; intros pt prfs.
  { intros [= -> ->]. by left. }
  assert (Run.choose_target mapping goal_description rest (Some t') (Some (Run.rank fss'))
          = Ok (Some t, Some rfs) →
          ∃ fss, (t, fss) ∈ (t', fss') :: rest ∧ rfs = Run.rank fss) as Hreplace.
  { intros [[[= ->] [= <-]]|(fss & Hin & ->)]%IH.
    - exists fss'. split; [by left|done].
    - exists fss. split; [by right|done]. }
  assert (Run.choose_target mapping goal_description rest pt prfs
          = Ok (Some t, Some rfs) →
          (pt = Some t ∧ prfs = Some rfs)
          ∨ ∃ fss, (t, fss) ∈ (t', fss') :: rest ∧ rfs = Run.rank fss) as Hkeep.
  { intros [?|(fss & Hin & ->)]%IH; [by left|].
    right. exists fss. split; [by right|done]. }
  destruct pt as [t0|], prfs as [r0|];
    try (rewrite choose_target_first by auto; intros H; right; by apply Hreplace).
  rewrite choose_target_step.
  destruct (_ && negb _); [intros H; right; by apply Hreplace|].
  destruct (_ || _); [done|apply Hkeep].
Qed.

(** A non-empty mapping always leaves a choice. *)
Lemma choose_target_some items pt prfs pt' prfs' :
  Run.choose_target mapping goal_description items pt prfs = Ok (pt', prfs') →
  (is_Some pt ∧ is_Some prfs) ∨ items ≠ [] →
  is_Some pt' ∧ is_Some prfs'.
Proof.
  revert pt prfs. induction items as [|[t' fss'] rest IH]; intros pt prfs.
  { intros [= <- <-] [?|?]; done. }
  intros Hc _. revert Hc.
  destruct pt as [t0|], prfs as [r0|];
    try (rewrite choose_target_first by auto; intros Hc;
         eapply IH; [exact Hc|left; by split]).
  rewrite choose_target_step.
  destruct (_ && negb _); [intros Hc; eapply IH; [exact Hc|left; by split]|].
  destruct (_ || _); [done|]. intros Hc. eapply IH; [exact Hc|left; by split].
Qed.

End choose_target_facts.

Lemma partition_permutation {T} (pred : T → bool) (l : list T) :
  (Run._partition l pred).1 ++ (Run._partition l pred).2 ≡ₚ l.
Proof.
  unfold Run._partition. simpl. induction l as [|x l IH]; simpl; [done|].
  destruct (pred x); simpl.
  - by rewrite IH.
  - by rewrite <-Permutation_middle, IH.
Qed.

Lemma rank_primary_elem fss fs :
  fs ∈ Run.primary (Run.rank fss) ↔ fs ∈ fss ∧ Run.is_primary fs = true.
Proof.
  unfold Run.rank, Run._partition. simpl.
  rewrite !list_elem_of_In. apply filter_In.
Qed.

Lemma rank_secondary_elem fss fs :
  fs ∈ Run.secondary (Run.rank fss) ↔ fs ∈ fss ∧ Run.is_primary fs = false.
Proof.
  unfold Run.rank, Run._partition. simpl.
  rewrite !list_elem_of_In, filter_In. by rewrite negb_true_iff.
Qed.

Lemma find_what_to_run_unfold mapping goal_description :
  Run._find_what_to_run mapping goal_description =
  match Run.choose_target mapping goal_description mapping None None with
  | Raise e => Raise e
  | Ok (Some t, Some rfs) =>
      let field_sets :=
        if Run.nonempty (Run.primary rfs) then Run.primary rfs else Run.secondary rfs in
      if 1 <? length field_sets then
        Raise (Run.AmbiguousImplementationsException t
                 (Run.primary rfs ++ Run.secondary rfs) goal_description)
      else match field_sets with
           | fs :: _ => Ok (fs, t)
           | [] => Raise Run.IndexError
           end
  | Ok _ => Raise Run.AssertionError
  end.
Proof.
  unfold Run._find_what_to_run.
  destruct (Run.choose_target _ _ _ _ _) as [[[t|] [r|]]|e]; reflexivity.
Qed.

(** Two targets that each have a primary field set always make
    [_find_what_to_run] fail with [TooManyTargetsException], wherever they
    stand in the mapping and whatever the other targets are. *)
Theorem two_primary_targets_fail (mapping : list (Target * list RunFieldSet))
    (goal_description : string) l1 e1 l2 e2 l3 :
  mapping = l1 ++ e1 :: l2 ++ e2 :: l3 →
  has_primary e1.2 = true →
  has_primary e2.2 = true →
  Run._find_what_to_run mapping goal_description
  = Raise (Run.TooManyTargetsException mapping goal_description).
Proof.
  intros Hm H1 H2. rewrite find_what_to_run_unfold.
  by rewrite (choose_target_two_primaries mapping goal_description mapping None None
                l1 e1 l2 e2 l3 Hm H1 H2).
Qed.

Lemma two_primary_targets_fail_witness :
  Run._find_what_to_run two_primary_targets "the `run` goal"
  = Raise (Run.TooManyTargetsException two_primary_targets "the `run` goal").
Proof.
  apply (two_primary_targets_fail two_primary_targets "the `run` goal"
           [] (target_named "a", [primary_field_set "main"])
           [(target_named "b", [secondary_field_set "entry_point"])]
           (target_named "c", [primary_field_set "main"; secondary_field_set "entry_point"])
           []); reflexivity.
Defined.

(** Whatever [_find_what_to_run] returns is an entry of the mapping and one
    of that target's own field sets, and it is never a pick among several:
    it is the target's only primary field set, or, when the target has no
    primary field set, its only secondary one. *)
Theorem find_what_to_run_returns_the_only_candidate
    (mapping : list (Target * list RunFieldSet)) (goal_description : string)
    (field_set : RunFieldSet) (target : Target) :
  Run._find_what_to_run mapping goal_description = Ok (field_set, target) →
  ∃ field_sets,
    (target, field_sets) ∈ mapping
    ∧ field_set ∈ field_sets
    ∧ ((Run.primary (Run.rank field_sets) = [field_set]
        ∧ Run.is_primary field_set = true)
       ∨ (Run.primary (Run.rank field_sets) = []
          ∧ Run.secondary (Run.rank field_sets) = [field_set]
          ∧ Run.is_primary field_set = false)).
Proof.
  rewrite find_what_to_run_unfold.
  destruct (Run.choose_target _ _ _ _ _) as [[[t|] [rfs|]]|e] eqn:Hc; try done.
  apply choose_target_ok in Hc as [[? _]|(fss & Hin & ->)]; [done|].
  cbv zeta.
  remember (Run.primary (Run.rank fss)) as ps eqn:Hp.
  remember (Run.secondary (Run.rank fss)) as ss eqn:Hs.
  intros Hret.
  destruct ps as [|p [|? ?]]; simpl in Hret; [| |done].
  - destruct ss as [|s [|? ?]]; simpl in Hret; try done.
    injection Hret as <- <-. exists fss. split; [done|].
    assert (s ∈ Run.secondary (Run.rank fss)) as [? ?]%rank_secondary_elem
      by (rewrite <-Hs; by left).
    split; [done|]. by right.
  - injection Hret as <- <-. exists fss. split; [done|].
    assert (p ∈ Run.primary (Run.rank fss)) as [? ?]%rank_primary_elem
      by (rewrite <-Hp; by left).
    split; [done|]. by left.
Qed.

Lemma find_what_to_run_returns_the_only_candidate_witness :
  ∃ field_sets,
    (target_named "a", field_sets) ∈ b_then_a
    ∧ primary_field_set "main" ∈ field_sets
    ∧ ((Run.primary (Run.rank field_sets) = [primary_field_set "main"]
        ∧ Run.is_primary (primary_field_set "main") = true)
       ∨ (Run.primary (Run.rank field_sets) = []
          ∧ Run.secondary (Run.rank field_sets) = [primary_field_set "main"]
          ∧ Run.is_primary (primary_field_set "main") = false)).
Proof.
  apply (find_what_to_run_returns_the_only_candidate b_then_a "the `run` goal"
           (primary_field_set "main") (target_named "a")).
  reflexivity.
Defined.

(** Case analysis on the field sets left for the final choice. *)
Ltac case_field_sets :=
  match goal with
  | |- context [match ?l with [] => _ | _ :: _ => _ end] => destruct l
  end.

(** When the loop raises, the target it was visiting shares a rank with
    the choice of that moment: the initial choice or an entry visited
    before. *)
Lemma choose_target_raise_tie mapping goal_description items t0 fss0 e :
  Run.choose_target mapping goal_description items (Some t0) (Some (Run.rank fss0)) = Raise e →
  (∃ l1 e1 l2, items = l1 ++ e1 :: l2 ∧ same_rank (t0, fss0) e1)
  ∨ (∃ l1 e1 l2 e2 l3, items = l1 ++ e1 :: l2 ++ e2 :: l3 ∧ same_rank e1 e2).
Proof.
  revert t0 fss0. induction items as [|[t fss] rest IH]; intros t0 fss0; [done|].
  rewrite choose_target_step.
  destruct (_ && negb _) eqn:Hrep.
  - intros [(l1 & e1 & l2 & -> & Hs)|(l1 & e1 & l2 & e2 & l3 & -> & Hs)]%IH; right.
    + by exists [], (t, fss), l1, e1, l2.
    + by exists ((t, fss) :: l1), e1, l2, e2, l3.
  - destruct (_ || _) eqn:Htie.
    + intros _. left. exists [], (t, fss), rest. split; [done|].
      apply orb_true_iff in Htie as [[? ?]%andb_true_iff|[? ?]%andb_true_iff];
        [left|right]; by split.
    + intros [(l1 & e1 & l2 & -> & Hs)|(l1 & e1 & l2 & e2 & l3 & -> & Hs)]%IH.
      * left. by exists ((t, fss) :: l1), e1, l2.
      * right. by exists ((t, fss) :: l1), e1, l2, e2, l3.
Qed.

(** [TooManyTargetsException] is raised only for a mapping in which two
    targets share a rank: both have a primary field set, or both have a
    secondary one; and it carries the whole mapping and the goal
    description. *)
Theorem too_many_targets_only_on_shared_rank
    (mapping mapping' : list (Target * list RunFieldSet))
    (goal_description goal_description' : string) :
  Run._find_what_to_run mapping goal_description
  = Raise (Run.TooManyTargetsException mapping' goal_description') →
  mapping' = mapping
  ∧ goal_description' = goal_description
  ∧ ∃ l1 e1 l2 e2 l3, mapping = l1 ++ e1 :: l2 ++ e2 :: l3 ∧ same_rank e1 e2.
Proof.
  rewrite find_what_to_run_unfold.
  destruct (Run.choose_target _ _ _ _ _) as [[[t|] [rfs|]]|e] eqn:Hc; try done.
  { cbv zeta. destruct (1 <? _); [done|]. by case_field_sets. }
  intros [= ->].
  pose proof (choose_target_raises _ _ _ _ _ _ Hc) as [= -> ->].
  split; [done|]. split; [done|].
  destruct mapping as [|[t fss] rest]; [done|].
  rewrite choose_target_first in Hc by auto.
  apply choose_target_raise_tie in Hc
    as [(l1 & e1 & l2 & -> & Hs)|(l1 & e1 & l2 & e2 & l3 & -> & Hs)].
  - by exists [], (t, fss), l1, e1, l2.
  - by exists ((t, fss) :: l1), e1, l2, e2, l3.
Qed.

Lemma too_many_targets_only_on_shared_rank_witness :
  ∃ l1 e1 l2 e2 l3, a_then_b = l1 ++ e1 :: l2 ++ e2 :: l3 ∧ same_rank e1 e2.
Proof.
  apply (too_many_targets_only_on_shared_rank a_then_b a_then_b
           "the `run` goal" "the `run` goal").
  reflexivity.
Defined.

(** [AmbiguousImplementationsException] names a target of the mapping and
    all of its field sets, the primary ones first; it is raised only when
    the target's primary field sets, or its secondary ones when it has no
    primary one, are two or more. *)
Theorem ambiguous_implementations_names_all
    (mapping : list (Target * list RunFieldSet)) (goal_description goal_description' : string)
    (target : Target) (named : list RunFieldSet) :
  Run._find_what_to_run mapping goal_description
  = Raise (Run.AmbiguousImplementationsException target named goal_description') →
  goal_description' = goal_description
  ∧ ∃ field_sets,
      (target, field_sets) ∈ mapping
      ∧ named = Run.primary (Run.rank field_sets) ++ Run.secondary (Run.rank field_sets)
      ∧ named ≡ₚ field_sets
      ∧ (2 <= length (Run.primary (Run.rank field_sets))
         ∨ (Run.primary (Run.rank field_sets) = []
            ∧ 2 <= length (Run.secondary (Run.rank field_sets)))).
Proof.
  rewrite find_what_to_run_unfold.
  destruct (Run.choose_target _ _ _ _ _) as [[[t|] [rfs|]]|e] eqn:Hc; try done.
  - apply choose_target_ok in Hc as [[? _]|(fss & Hin & ->)]; [done|].
    cbv zeta. destruct (1 <? _) eqn:Hlen.
    + intros [= <- <- <-]. split; [done|]. exists fss.
      split; [done|]. split; [done|]. split.
      { apply (partition_permutation Run.is_primary fss). }
      apply Nat.ltb_lt in Hlen.
      destruct (Run.primary (Run.rank fss)) as [|? ?]; simpl in *; [right|left]; [done|lia].
    + by case_field_sets.
  - intros [= ->]. by apply choose_target_raises in Hc.
Qed.

Lemma ambiguous_implementations_names_all_witness :
  ∃ field_sets,
    (target_named "a", field_sets) ∈ ambiguous_target
    ∧ [primary_field_set "main"; primary_field_set "script"; secondary_field_set "entry_point"]
      = Run.primary (Run.rank field_sets) ++ Run.secondary (Run.rank field_sets)
    ∧ [primary_field_set "main"; primary_field_set "script"; secondary_field_set "entry_point"]
      ≡ₚ field_sets
    ∧ (2 <= length (Run.primary (Run.rank field_sets))
       ∨ (Run.primary (Run.rank field_sets) = []
          ∧ 2 <= length (Run.secondary (Run.rank field_sets)))).
Proof.
  apply (ambiguous_implementations_names_all ambiguous_target
           "the `run` goal" "the `run` goal" (target_named "a")
           [primary_field_set "main"; primary_field_set "script";
            secondary_field_set "entry_point"]).
  reflexivity.
Defined.

(** The two remaining failures come from degenerate mappings only: the
    assertion fails exactly for the empty mapping, and [field_sets[0]]
    raises [IndexError] only when the mapping has a target with no field
    set at all. *)
Theorem degenerate_mappings (mapping : list (Target * list RunFieldSet))
    (goal_description : string) :
  (Run._find_what_to_run mapping goal_description = Raise Run.AssertionError
   ↔ mapping = [])
  ∧ (Run._find_what_to_run mapping goal_description = Raise Run.IndexError
     → ∃ target, (target, []) ∈ mapping).
Proof.
  rewrite find_what_to_run_unfold. split.
  - split.
    + destruct (Run.choose_target _ _ _ _ _) as [[pt prfs]|e] eqn:Hc.
      * destruct mapping as [|entry rest]; [done|].
        destruct (choose_target_some _ _ _ _ _ _ _ Hc) as [[t ->] [r ->]]; [by right|].
        cbv zeta. destruct (1 <? _); [done|]. by case_field_sets.
      * intros [= ->]. by apply choose_target_raises in Hc.
    + by intros ->.
  - destruct (Run.choose_target _ _ _ _ _) as [[[t|] [rfs|]]|e] eqn:Hc; try done.
    + apply choose_target_ok in Hc as [[? _]|(fss & Hin & ->)]; [done|].
      cbv zeta. destruct (1 <? _); [done|].
      pose proof (partition_permutation Run.is_primary fss) as Hperm.
      change (Run.primary (Run.rank fss) ++ Run.secondary (Run.rank fss) ≡ₚ fss) in Hperm.
      remember (Run.primary (Run.rank fss)) as ps eqn:Hp.
      remember (Run.secondary (Run.rank fss)) as ss eqn:Hs.
      destruct ps as [|? ?]; [|done]. destruct ss as [|? ?]; [|done].
      intros _. exists t. apply Permutation_nil in Hperm. by subst.
    + intros [= ->]. by apply choose_target_raises in Hc.
Qed.

(** ** One update of a dictionary *)

(** A successful [_safe_update] only adds: every binding of [d1] is kept
    with its value, every item is bound in the result, and the result binds
    nothing else. This holds for any sequence of items, repeated keys
    included. *)
Theorem safe_update_only_adds `{Countable K} {V : Type} `{EqDecision V}
    (d1 r : gmap K V) (items : list (K * V)) :
  _safe_update d1 items = Ok r →
  d1 ⊆ r
  ∧ (∀ k v, (k, v) ∈ items → r !! k = Some v)
  ∧ (∀ k v, r !! k = Some v → d1 !! k = Some v ∨ (k, v) ∈ items).
Proof.
  revert d1. induction items as [|[k v] rest IH]; intros d1; simpl.
  { intros [= <-]. split; [done|]. split; [|by left].
    intros ? ? Hin. by apply elem_of_nil in Hin. }
  intros Hok.
  assert (d1 ⊆ <[k:=v]> d1 ∧ _safe_update (<[k:=v]> d1) rest = Ok r) as [Hsub Hrest].
  { destruct (d1 !! k) as [v'|] eqn:Hd.
    - destruct (decide (v' = v)) as [->|]; [|done].
      split; [by rewrite insert_id|done].
    - split; [by apply insert_subseteq|done]. }
  destruct (IH _ Hrest) as (Hs & Hitems & Honly).
  split; [by etrans|]. split.
  - intros k' v' [[= -> ->]|Hin]%elem_of_cons; [|by apply Hitems].
    eapply lookup_weaken; [|exact Hs]. by rewrite lookup_insert_eq.
  - intros k' v' [Hl|Hin]%Honly; [|right; by right].
    destruct (decide (k = k')) as [->|Hne].
    + rewrite lookup_insert_eq in Hl. injection Hl as ->. right. by left.
    + rewrite lookup_insert_ne in Hl by done. by left.
Qed.

Lemma safe_update_only_adds_witness :
  ({["jdk" := 11]} : gmap string nat) ⊆ {["jdk" := 11; "node" := 18]}.
Proof.
  apply (safe_update_only_adds ({["jdk" := 11]} : gmap string nat)
           {["jdk" := 11; "node" := 18]} [("node", 18); ("jdk", 11); ("node", 18)]).
  vm_compute. reflexivity.
Defined.

(** ** Lines of a wrapper script *)

Lemma string_app_assoc (a b c : string) : (a +:+ b) +:+ c = a +:+ b +:+ c.
Proof.
  induction a as [|x a IH]; [by rewrite !app_empty|].
  by rewrite !app_cons, IH.
Qed.

Lemma contains_newline_app (a b : string) :
  contains_newline (a +:+ b) = contains_newline a || contains_newline b.
Proof.
  induction a as [|x a IH]; [by rewrite app_empty|].
  rewrite app_cons. simpl. by rewrite IH, orb_assoc.
Qed.

Lemma split_no_newline (s : string) :
  contains_newline s = false → Py.split_char Py.newline s = [s].
Proof.
  induction s as [|c s IH]; simpl; [done|].
  intros [Hc Hs]%orb_false_iff. rewrite Hc. by rewrite IH.
Qed.

Lemma split_app_newline (a b : string) :
  contains_newline a = false →
  Py.split_char Py.newline (a +:+ String Py.newline b) = a :: Py.split_char Py.newline b.
Proof.
  induction a as [|c a IH].
  - intros _. rewrite app_empty. simpl. done.
  - rewrite app_cons. simpl.
    intros [Hc Ha]%orb_false_iff. rewrite Hc. by rewrite IH.
Qed.

Lemma escape_no_newline (s : string) :
  contains_newline (Shlex.escape_single_quotes s) = contains_newline s.
Proof.
  induction s as [|c s IH]; simpl; [done|].
  destruct (Ascii.eqb_spec c "'"%char) as [->|Hne].
  - rewrite !contains_newline_app, IH. done.
  - simpl. by rewrite IH.
Qed.

Lemma quote_no_newline (s : string) :
  contains_newline (Shlex.quote s) = contains_newline s.
Proof.
  unfold Shlex.quote. destruct s as [|c s]; [done|].
  destruct (Shlex.find_unsafe _); [|done].
  rewrite !contains_newline_app, escape_no_newline.
  change (contains_newline "'") with false. by rewrite orb_false_r.
Qed.

Lemma join_no_newline (sep : string) (parts : list string) :
  contains_newline sep = false →
  Forall (λ p, contains_newline p = false) parts →
  contains_newline (Py.join sep parts) = false.
Proof.
  intros Hsep. unfold Py.join. induction 1 as [|p ps Hp Hps IH]; [done|].
  destruct ps as [|q ps]; [done|].
  change (String.concat sep (p :: q :: ps)) with (p +:+ sep +:+ String.concat sep (q :: ps)).
  by rewrite !contains_newline_app, Hp, Hsep, IH.
Qed.

Lemma exec_line_no_newline (args : list string) :
  Forall (λ a, contains_newline a = false) args →
  contains_newline (exec_line args) = false.
Proof.
  intros Hargs. unfold exec_line.
  rewrite !contains_newline_app, join_no_newline; [done|done|].
  apply Forall_fmap. eapply Forall_impl; [exact Hargs|].
  intros a Ha. simpl. by rewrite quote_no_newline.
Qed.

Lemma export_line_no_newline (item : string * string) :
  contains_newline item.1 = false → contains_newline item.2 = false →
  contains_newline (export_line item) = false.
Proof.
  intros H1 H2. unfold export_line.
  by rewrite !contains_newline_app, !quote_no_newline, H1, H2.
Qed.

(** The interpolated template, line by line. *)
Lemma shim_template_lines (bash env_str binary : string) :
  shim_template bash env_str binary
  = (shim_indent +:+ "#!" +:+ bash)
    +:+ String Py.newline
          ((shim_indent +:+ env_str)
           +:+ String Py.newline
                 ((shim_indent +:+ "exec " +:+ binary +:+ " " +:+ Py.dq +:+ "$@" +:+ Py.dq)
                  +:+ String Py.newline shim_indent)).
Proof. unfold shim_template. by rewrite !string_app_assoc. Qed.

Lemma split_joined_lines (prefix first rest : string) (others : list string) :
  contains_newline prefix = false →
  Forall (λ l, contains_newline l = false) (first :: others) →
  Py.split_char Py.newline
    ((prefix +:+ Py.join Py.nl (first :: others)) +:+ String Py.newline rest)
  = (prefix +:+ first) :: others ++ Py.split_char Py.newline rest.
Proof.
  intros Hprefix Hall. revert prefix first Hprefix Hall.
  induction others as [|second others IH]; intros prefix first Hprefix Hall.
  - apply Forall_cons in Hall as [Hfirst _].
    change (Py.join Py.nl [first]) with first.
    rewrite split_app_newline; [done|].
    by rewrite contains_newline_app, Hprefix, Hfirst.
  - apply Forall_cons in Hall as [Hfirst Hall].
    change (Py.join Py.nl (first :: second :: others))
      with (first +:+ String Py.newline (Py.join Py.nl (second :: others))).
    rewrite <-(string_app_assoc prefix first), string_app_assoc.
    change (String Py.newline (Py.join Py.nl (second :: others)) +:+ String Py.newline rest)
      with (String Py.newline
              (("" +:+ Py.join Py.nl (second :: others)) +:+ String Py.newline rest)).
    rewrite split_app_newline by (by rewrite contains_newline_app, Hprefix, Hfirst).
    by rewrite IH.
Qed.

Lemma shim_lines (bash binary : string) (exports : list string) :
  contains_newline bash = false →
  contains_newline binary = false →
  Forall (λ l, contains_newline l = false) exports →
  Py.split_char Py.newline (shim_template bash (Py.join Py.nl exports) binary)
  = (shim_indent +:+ "#!" +:+ bash)
    :: match exports with
       | [] => [shim_indent]
       | first :: others => (shim_indent +:+ first) :: others
       end
    ++ [shim_indent +:+ "exec " +:+ binary +:+ " " +:+ Py.dq +:+ "$@" +:+ Py.dq;
        shim_indent].
Proof.
  intros Hbash Hbin Hexp. rewrite shim_template_lines.
  rewrite split_app_newline by (by rewrite !contains_newline_app, Hbash).
  f_equal.
  assert (Py.split_char Py.newline
            ((shim_indent +:+ "exec " +:+ binary +:+ " " +:+ Py.dq +:+ "$@" +:+ Py.dq)
             +:+ String Py.newline shim_indent)
          = [shim_indent +:+ "exec " +:+ binary +:+ " " +:+ Py.dq +:+ "$@" +:+ Py.dq;
             shim_indent]) as Hexec.
  { rewrite split_app_newline by (by rewrite !contains_newline_app, Hbin). done. }
  destruct exports as [|first others].
  - change (shim_indent +:+ Py.join Py.nl []) with shim_indent.
    rewrite split_app_newline by done. by rewrite Hexec.
  - rewrite split_joined_lines by done. by rewrite Hexec.
Qed.

Lemma export_line_starts (item : string * string) :
  ∃ rest, export_line item = String "e"%char rest.
Proof. by eexists. Qed.

Lemma margin_of_empty (indents : list string) :
  Textwrap.margin_of (Some "") indents = Some "".
Proof. induction indents as [|i indents IH]; [done|]. exact IH. Qed.

Lemma strip_no_margin (lines : list string) :
  map (Textwrap.strip_margin "") lines = lines.
Proof. induction lines as [|l lines IH]; [done|]. simpl. by rewrite IH. Qed.

Lemma export_lines_normalized (items : list (string * string)) :
  map Textwrap.normalize_line (map export_line items) = map export_line items.
Proof.
  induction items as [|item items IH]; [done|]. simpl. rewrite IH.
  by destruct (export_line_starts item) as [rest ->].
Qed.

Lemma export_lines_margin (items : list (string * string)) (rest : list string) :
  Textwrap.margin_of (Some "")
    (map Textwrap.leading_whitespace
       (filter (λ l, Py.truthy l = true) (map export_line items ++ rest)))
  = Some "".
Proof. apply margin_of_empty. Qed.

(** With no extra environment variable, or with one, and no newline in the
    shell path, the arguments or the variable, the wrapper script is the
    shebang line, the [export] line (an empty line when there is no
    variable) and the [exec] line, each ended by a newline. *)
Theorem shim_of_at_most_one_variable (bash : string) (args : list string)
    (extra_env : list (string * string)) :
  length extra_env <= 1 →
  contains_newline bash = false →
  Forall (λ a, contains_newline a = false) args →
  Forall (λ item, contains_newline item.1 = false ∧ contains_newline item.2 = false)
    extra_env →
  _runnable_dependency_shim bash args extra_env
  = Py.join Py.nl
      [ "#!" +:+ bash;
        match extra_env with item :: _ => export_line item | [] => "" end;
        exec_line args;
        "" ].
Proof.
  intros Hlen Hbash Hargs Henv. unfold _runnable_dependency_shim, Textwrap.dedent.
  rewrite shim_lines; [|done| |].
  - destruct extra_env as [|item [|? ?]]; [| |simpl in Hlen; lia].
    + reflexivity.
    + destruct (export_line_starts item) as [rest Hrest].
      change (map export_line [item]) with [export_line item].
      rewrite Hrest. reflexivity.
  - apply join_no_newline; [done|].
    apply Forall_fmap. eapply Forall_impl; [exact Hargs|].
    intros a Ha. simpl. by rewrite quote_no_newline.
  - apply Forall_fmap. eapply Forall_impl; [exact Henv|].
    intros item [? ?]. by apply export_line_no_newline.
Qed.

(** With two or more extra environment variables [dedent] removes
    nothing: the second [export] line has no indentation, so the margin is
    empty, and the script keeps the eight spaces of the template before the
    shebang, before the first [export] and before [exec]. *)
Theorem shim_of_several_variables (bash : string) (args : list string)
    (first second : string * string) (others : list (string * string)) :
  contains_newline bash = false →
  Forall (λ a, contains_newline a = false) args →
  Forall (λ item, contains_newline item.1 = false ∧ contains_newline item.2 = false)
    (first :: second :: others) →
  _runnable_dependency_shim bash args (first :: second :: others)
  = Py.join Py.nl
      ((shim_indent +:+ "#!" +:+ bash)
       :: (shim_indent +:+ export_line first)
       :: map export_line (second :: others)
       ++ [shim_indent +:+ exec_line args; ""]).
Proof.
  intros Hbash Hargs Henv. unfold _runnable_dependency_shim, Textwrap.dedent.
  rewrite shim_lines; [|done| |].
  - change (map export_line (first :: second :: others))
      with (export_line first :: map export_line (second :: others)).
    cbv beta iota zeta.
    assert (map Textwrap.normalize_line
              ((shim_indent +:+ "#!" +:+ bash)
               :: ((shim_indent +:+ export_line first) :: map export_line (second :: others))
               ++ [shim_indent +:+ "exec " +:+ Py.join " " (map Shlex.quote args)
                     +:+ " " +:+ Py.dq +:+ "$@" +:+ Py.dq;
                   shim_indent])
            = (shim_indent +:+ "#!" +:+ bash)
              :: (shim_indent +:+ export_line first)
              :: map export_line (second :: others)
              ++ [shim_indent +:+ exec_line args; ""]) as ->.
    { rewrite map_cons. f_equal. rewrite map_app, map_cons, export_lines_normalized.
      destruct (export_line_starts first) as [rest ->]. reflexivity. }
    assert (Textwrap.margin_of None
              (map Textwrap.leading_whitespace
                 (filter (λ l, Py.truthy l = true)
                    ((shim_indent +:+ "#!" +:+ bash)
                     :: (shim_indent +:+ export_line first)
                     :: map export_line (second :: others)
                     ++ [shim_indent +:+ exec_line args; ""])))
            = Some "") as ->.
    { change (map export_line (second :: others))
        with (export_line second :: map export_line others).
      destruct (export_line_starts first) as [rest1 ->].
      destruct (export_line_starts second) as [rest2 ->].
      exact (margin_of_empty
               (map Textwrap.leading_whitespace
                  (filter (λ l, Py.truthy l = true)
                     (map export_line others ++ [shim_indent +:+ exec_line args; ""])))). }
    by rewrite strip_no_margin.
  - apply join_no_newline; [done|].
    apply Forall_fmap. eapply Forall_impl; [exact Hargs|].
    intros a Ha. simpl. by rewrite quote_no_newline.
  - apply Forall_fmap. eapply Forall_impl; [exact Henv|].
    intros item [? ?]. by apply export_line_no_newline.
Qed.

Lemma shim_of_at_most_one_variable_witness :
  _runnable_dependency_shim "/bin/bash" ["/bin/fmt"; "-w"] [("LANG", "C")]
  = Py.join Py.nl ["#!/bin/bash"; "export LANG=C"; exec_line ["/bin/fmt"; "-w"]; ""].
Proof.
  apply (shim_of_at_most_one_variable "/bin/bash" ["/bin/fmt"; "-w"] [("LANG", "C")]).
  - simpl. lia.
  - reflexivity.
  - repeat constructor.
  - repeat constructor.
Defined.

Lemma shim_of_several_variables_witness :
  _runnable_dependency_shim "/bin/bash" ["/bin/fmt"; "-w"] [("X", "1"); ("Y", "2")]
  = Py.join Py.nl
      [ "        #!/bin/bash"; "        export X=1"; "export Y=2";
        "        exec /bin/fmt -w " +:+ Py.dq +:+ "$@" +:+ Py.dq; "" ].
Proof.
  apply (shim_of_several_variables "/bin/bash" ["/bin/fmt"; "-w"] ("X", "1") ("Y", "2") []).
  - reflexivity.
  - repeat constructor.
  - repeat constructor.
Defined.

(** ** Resolved directories stay below the build root *)

(** The resolved directory never starts with the separator, whatever the
    working directory string, provided the directory it is resolved against
    does not start with the separator and the string starts with neither
    [//] nor [.//] (of a string that starts with two separators one is
    left, and [./] followed by an absolute path gives that path). *)
Theorem parse_relative_directory_is_relative (workdir_in : string)
    (relative_to : Address + string) :
  Py.startswith (base_directory relative_to) "/" = false →
  Py.startswith workdir_in "//" = false →
  Py.startswith workdir_in ".//" = false →
  Py.startswith (_parse_relative_directory workdir_in relative_to) "/" = false.
Proof.
  intros Hbase H2 H3. unfold _parse_relative_directory.
  change (match relative_to with inl a => spec_path a | inr s => s end)
    with (base_directory relative_to).
  destruct (String.eqb workdir_in "."); [done|].
  change ".//" with ("./" +:+ "/") in H3. rewrite startswith_split in H3.
  change "//" with ("/" +:+ "/") in H2. rewrite startswith_split in H2.
  destruct (Py.startswith workdir_in "./") eqn:Hdot.
  - apply join_is_relative; [done|]. exact H3.
  - destruct (Py.startswith workdir_in "/") eqn:Hslash; [exact H2|done].
Qed.

Lemma parse_relative_directory_is_relative_witness :
  Py.startswith (_parse_relative_directory "./gen/out" (inl sample_address)) "/" = false.
Proof.
  apply (parse_relative_directory_is_relative "./gen/out" (inl sample_address));
    reflexivity.
Defined.

(** ** Preparing an adhoc process *)

(** What [prepare_adhoc_process] has asked the engine when it returns. *)
Lemma prepare_adhoc_process_returns E request bash process :
  prepare_adhoc_process E request bash = Ok process →
  ∃ ambient dirs work_dir input_digest,
    get_environment_vars E (AdhocProcessRequest.fetch_env_vars request) = Ok ambient
    ∧ get_snapshot_dirs E (AdhocProcessRequest.input_digest request) = Ok dirs
    ∧ (if negb (Py.truthy (resolved_working_directory request))
          || bool_decide (resolved_working_directory request ∈ dirs)
       then Ok (EMPTY_DIGEST E)
       else get_create_digest E [Directory (resolved_working_directory request)])
      = Ok work_dir
    ∧ get_merge_digests E [AdhocProcessRequest.input_digest request; work_dir]
      = Ok input_digest
    ∧ process
      = _output_at_build_root
          {| Process.argv := AdhocProcessRequest.argv request;
             Process.description := "Running " +:+ AdhocProcessRequest.description request;
             Process.env :=
               default ∅ (AdhocProcessRequest.supplied_env_var_values request) ∪ ambient;
             Process.input_digest := input_digest;
             Process.output_directories := AdhocProcessRequest.output_directories request;
             Process.output_files := AdhocProcessRequest.output_files request;
             Process.timeout_seconds := AdhocProcessRequest.timeout request;
             Process.working_directory := Some (resolved_working_directory request);
             Process.append_only_caches :=
               default ∅ (AdhocProcessRequest.append_only_caches request);
             Process.immutable_input_digests :=
               default ∅ (AdhocProcessRequest.immutable_input_digests request) |}
          bash.
Proof.
  unfold prepare_adhoc_process.
  fold (resolved_working_directory request).
  destruct (get_environment_vars E _) as [ambient|] eqn:Henv; [|done]. simpl.
  destruct (get_snapshot_dirs E _) as [dirs|] eqn:Hdirs; [|done]. simpl.
  match goal with
  | |- context [mbind _ (if ?c then ?a else ?b)] =>
      destruct (if c then a else b) as [work_dir|] eqn:Hwd; [|done]
  end. simpl.
  destruct (get_merge_digests E _) as [input_digest|] eqn:Hmerge; [|done]. simpl.
  intros [= <-]. by exists ambient, dirs, work_dir, input_digest.
Qed.

(** The environment of the prepared process is the fetched ambient
    environment overlaid with the supplied values: a supplied variable has
    its supplied value, any other variable has its ambient value, and no
    other variable is set. *)
Theorem supplied_environment_wins (E : Engine) (request : AdhocProcessRequest.t)
    (bash : BashBinary) (process : Process.t) :
  prepare_adhoc_process E request bash = Ok process →
  ∃ ambient,
    get_environment_vars E (AdhocProcessRequest.fetch_env_vars request) = Ok ambient
    ∧ ∀ name,
        Process.env process !! name
        = match default ∅ (AdhocProcessRequest.supplied_env_var_values request) !! name with
          | Some value => Some value
          | None => ambient !! name
          end.
Proof.
  intros (ambient & dirs & work_dir & input_digest & Henv & _ & _ & _ & ->)
    %prepare_adhoc_process_returns.
  exists ambient. split; [done|]. intros name. simpl.
  destruct (default ∅ _ !! name) as [value|] eqn:Hs.
  - by apply lookup_union_Some_l.
  - by rewrite lookup_union_r.
Qed.

Lemma supplied_environment_wins_witness :
  ∃ process,
    prepare_adhoc_process ambient_engine override_request sample_bash = Ok process
    ∧ Process.env process !! "PATH" = Some "/opt/bin"
    ∧ Process.env process !! "LANG" = Some "C".
Proof.
  destruct (prepare_adhoc_process ambient_engine override_request sample_bash)
    as [process|] eqn:Hp; [|discriminate Hp].
  destruct (supplied_environment_wins ambient_engine override_request sample_bash process Hp)
    as (ambient & Hamb & Henv).
  injection Hamb as <-.
  exists process. split; [reflexivity|].
  split; rewrite Henv; reflexivity.
Defined.

(** The working directory is created only when it is missing: when the
    resolved working directory is empty or already among the directories
    of the input, [CreateDigest] has no part in the result and the input is
    merged with the empty digest; otherwise the input is merged with the
    digest the engine creates for that one directory, and a failure to
    create it is the failure of the preparation. *)
Theorem working_directory_is_ensured (E : Engine) (request : AdhocProcessRequest.t)
    (bash : BashBinary) (ambient : gmap string string) (dirs : list string) :
  get_environment_vars E (AdhocProcessRequest.fetch_env_vars request) = Ok ambient →
  get_snapshot_dirs E (AdhocProcessRequest.input_digest request) = Ok dirs →
  (resolved_working_directory request = ""
   ∨ resolved_working_directory request ∈ dirs →
     (∀ create,
         prepare_adhoc_process (with_create_digest E create) request bash
         = prepare_adhoc_process E request bash)
     ∧ ∀ process,
         prepare_adhoc_process E request bash = Ok process →
         get_merge_digests E [AdhocProcessRequest.input_digest request; EMPTY_DIGEST E]
         = Ok (Process.input_digest process))
  ∧ (resolved_working_directory request ≠ "" →
     resolved_working_directory request ∉ dirs →
     (∀ e,
         get_create_digest E [Directory (resolved_working_directory request)] = Raise e →
         prepare_adhoc_process E request bash = Raise e)
     ∧ ∀ process,
         prepare_adhoc_process E request bash = Ok process →
         ∃ work_dir,
           get_create_digest E [Directory (resolved_working_directory request)] = Ok work_dir
           ∧ get_merge_digests E [AdhocProcessRequest.input_digest request; work_dir]
             = Ok (Process.input_digest process)).
Proof.
  intros Henv Hdirs.
  assert (∀ b, Py.truthy b = false ↔ b = "") as Htruthy by (intros [|? ?]; done).
  split.
  - intros Hpresent.
    assert (negb (Py.truthy (resolved_working_directory request))
            || bool_decide (resolved_working_directory request ∈ dirs) = true) as Hcond.
    { destruct Hpresent as [->|Hin]; [done|].
      rewrite (bool_decide_eq_true_2 _ Hin). by rewrite orb_true_r. }
    split.
    + intros create. unfold prepare_adhoc_process. simpl.
      fold (resolved_working_directory request).
      rewrite Henv, Hdirs. simpl. by rewrite Hcond.
    + intros process
        (ambient' & dirs' & work_dir & input_digest & _ & Hdirs' & Hwd & Hmerge & ->)
        %prepare_adhoc_process_returns.
      rewrite Hdirs in Hdirs'. injection Hdirs' as <-.
      rewrite Hcond in Hwd. by injection Hwd as <-.
  - intros Hne Hnin.
    assert (negb (Py.truthy (resolved_working_directory request))
            || bool_decide (resolved_working_directory request ∈ dirs) = false) as Hcond.
    { rewrite (bool_decide_eq_false_2 _ Hnin), orb_false_r.
      destruct (Py.truthy _) eqn:Ht; [done|]. by apply Htruthy in Ht. }
    split.
    + intros e He. unfold prepare_adhoc_process.
      fold (resolved_working_directory request).
      rewrite Henv, Hdirs. simpl. rewrite Hcond, He. done.
    + intros process
        (ambient' & dirs' & work_dir & input_digest & _ & Hdirs' & Hwd & Hmerge & ->)
        %prepare_adhoc_process_returns.
      rewrite Hdirs in Hdirs'. injection Hdirs' as <-.
      rewrite Hcond in Hwd. by exists work_dir.
Qed.

Lemma working_directory_is_ensured_witness :
  prepare_adhoc_process
    (with_create_digest ambient_engine (λ _, Raise (EngineError "read-only store")))
    override_request sample_bash
  = prepare_adhoc_process ambient_engine override_request sample_bash.
Proof.
  destruct (working_directory_is_ensured ambient_engine override_request sample_bash
              {[ "PATH" := "/usr/bin"; "LANG" := "C" ]} ["src"; "src/app"])
    as [Hpresent _].
  - reflexivity.
  - reflexivity.
  - destruct Hpresent as [Hsame _]; [|apply Hsame].
    right. right. left.
Defined.

(** ** What the shim builder returns *)

(** Whenever the body of [_resolve_runnable_dependencies] returns, with
    [pairs] the declarations zipped with their run specifications: the
    wrapper scripts handed to [CreateDigest] are one executable file per
    pair, named after the declarations in order; the digests handed to
    [MergeDigests] are the run digests in order; the append-only caches
    returned are the conflict-free merge of the pairs' caches; and the
    immutable input digests returned are the conflict-free merge of the
    pairs' maps with the shim digest stored under the returned path
    component, which is [shims_] followed by its fingerprint. *)
Theorem resolve_from_runnables_returns (E : Engine) (bash : BashBinary)
    (deps : list runnable.t) (runnables : list RunInSandboxRequest.t)
    (digest : Digest) (rd : RunnableDependencies.t) :
  resolve_from_runnables E bash deps runnables = Ok (digest, rd) →
  ∃ files shim_digest merged,
    get_create_digest E (map File files) = Ok shim_digest
    ∧ map path files = map (λ p, runnable.name p.1) (zip deps runnables)
    ∧ Forall (λ f, is_executable f = true) files
    ∧ get_merge_digests E (map (λ p, RunInSandboxRequest.digest p.2) (zip deps runnables))
      = Ok digest
    ∧ merge_maps (map (λ p, extra_append_only_caches p.2) (zip deps runnables))
      = Ok (RunnableDependencies.append_only_caches rd)
    ∧ merge_maps (map (λ p, extra_immutable_input_digests p.2) (zip deps runnables))
      = Ok merged
    ∧ RunnableDependencies.path_component rd = "shims_" +:+ fingerprint shim_digest
    ∧ RunnableDependencies.immutable_input_digests rd
      = <[RunnableDependencies.path_component rd := shim_digest]> merged.
Proof.
  unfold resolve_from_runnables.
  destruct (collect bash (zip deps runnables) nothing_collected) as [st|] eqn:Hc; [|done].
  simpl.
  destruct (get_merge_digests E (digests st)) as [d|] eqn:Hm; [|done]. simpl.
  destruct (get_create_digest E (map File (shims st))) as [sd|] eqn:Hs; [|done]. simpl.
  intros [= <- <-]. simpl.
  apply collect_ok_inv in Hc as (Hi & Ha & Hshims & Hdigests). simpl in *.
  exists (shims st), sd, (immutable_input_digests st).
  split; [done|]. split.
  { rewrite Hshims, map_map. done. }
  split.
  { rewrite Hshims. apply Forall_fmap. by apply Forall_true. }
  split; [by rewrite <-Hdigests|]. done.
Qed.

Lemma resolve_from_runnables_returns_witness :
  ∃ files shim_digest,
    get_create_digest (sample_engine fmt_spec 0) (map File files) = Ok shim_digest
    ∧ map path files = ["fmt"; "lint"].
Proof.
  destruct (resolve_from_runnables_returns (sample_engine fmt_spec 0) sample_bash
              [fmt_declaration; lint_declaration]
              [fmt_spec; run_spec ["/bin/lint"] [("LANG", "C")] None None]
              (digest_of "run+run")
              {| RunnableDependencies.path_component := "shims_fmt,lint";
                 RunnableDependencies.immutable_input_digests :=
                   {[ "shims_fmt,lint" := digest_of "fmt,lint" ]};
                 RunnableDependencies.append_only_caches := ∅ |})
    as (files & shim_digest & merged & Hcreate & Hnames & _).
  - vm_compute. reflexivity.
  - exists files, shim_digest. split; [exact Hcreate|exact Hnames].
Defined.

(** ** Resolving the execution environment *)

Lemma resolve_execution_environment_unfold G E bash request :
  resolve_execution_environment G E bash request =
  match execution_roots G E bash request with
  | Raise e => Raise e
  | Ok (execution_dependencies, runnables_digest, runnable_dependencies) =>
      transitive ← get_transitive_targets G execution_dependencies;
      sources ← get_source_files G (all_dependencies transitive);
      field_sets ← get_package_field_sets G (all_dependencies transitive);
      packages ← MultiGet (get_built_package G) field_sets;
      dependencies_digest ← get_merge_digests E (sources :: runnables_digest :: packages);
      mret {| ResolvedExecutionDependencies.digest := dependencies_digest;
              ResolvedExecutionDependencies.runnable_dependencies := runnable_dependencies |}
  end.
Proof.
  unfold resolve_execution_environment.
  by destruct (execution_roots G E bash request) as [[[? ?] ?]|].
Qed.

(** The deprecated [dependencies] field changes nothing of what is
    resolved. With an explicit [execution_dependencies] list neither the
    field nor [warn_or_error] has any part in the outcome. Without one, the
    request with [dependencies] is resolved exactly as the request without
    them once [warn_or_error] has returned, and fails with its exception
    when it raises. *)
Theorem deprecated_dependencies_change_nothing (G : GraphEngine) (E : Engine)
    (bash : BashBinary) (address : Address) :
  (∀ raw d1 d2 warn,
      resolve_execution_environment (with_warn_or_error G warn) E bash
        (execution_request address (Some raw) d1)
      = resolve_execution_environment G E bash
          (execution_request address (Some raw) d2))
  ∧ (∀ d,
      resolve_execution_environment G E bash (execution_request address None (Some d))
      = match warn_or_error G "2.17.0.dev0" deprecation_entity deprecation_hint with
        | Ok _ =>
            resolve_execution_environment G E bash (execution_request address None None)
        | Raise e => Raise e
        end).
Proof.
  split.
  - intros raw d1 d2 warn. reflexivity.
  - intros d. rewrite !resolve_execution_environment_unfold.
    unfold execution_roots. simpl.
    destruct (warn_or_error G "2.17.0.dev0" deprecation_entity deprecation_hint) as [[]|e]; reflexivity.
Qed.

(** Without an explicit [execution_dependencies] list the target itself is
    the only root handed to the transitive search, the digests merged are
    the sources, the empty digest and the built packages in that order, no
    [RunnableDependencies] value is returned, and none of the requests that
    resolve addresses, run specifications or wrapper scripts has a part: the
    outcome is the same for any engine that merges digests alike. *)
Theorem fallback_resolves_the_target_itself (G : GraphEngine) (E E' : Engine)
    (bash : BashBinary) (address : Address) (dependencies : option (list string)) :
  get_merge_digests E' = get_merge_digests E →
  EMPTY_DIGEST E' = EMPTY_DIGEST E →
  resolve_execution_environment G E' bash (execution_request address None dependencies)
  = resolve_execution_environment G E bash (execution_request address None dependencies)
  ∧ ∀ resolved,
      resolve_execution_environment G E bash (execution_request address None dependencies)
      = Ok resolved →
      ResolvedExecutionDependencies.runnable_dependencies resolved = None
      ∧ ∃ transitive sources field_sets packages,
          get_transitive_targets G [address] = Ok transitive
          ∧ get_source_files G (all_dependencies transitive) = Ok sources
          ∧ get_package_field_sets G (all_dependencies transitive) = Ok field_sets
          ∧ MultiGet (get_built_package G) field_sets = Ok packages
          ∧ get_merge_digests E (sources :: EMPTY_DIGEST E :: packages)
            = Ok (ResolvedExecutionDependencies.digest resolved).
Proof.
  intros Hmerge Hempty. rewrite !resolve_execution_environment_unfold.
  unfold execution_roots. simpl.
  assert (∀ resolved,
            (transitive ← get_transitive_targets G [address];
             sources ← get_source_files G (all_dependencies transitive);
             field_sets ← get_package_field_sets G (all_dependencies transitive);
             packages ← MultiGet (get_built_package G) field_sets;
             dependencies_digest ← get_merge_digests E (sources :: EMPTY_DIGEST E :: packages);
             mret {| ResolvedExecutionDependencies.digest := dependencies_digest;
                     ResolvedExecutionDependencies.runnable_dependencies := None |})
            = Ok resolved →
            ResolvedExecutionDependencies.runnable_dependencies resolved = None
            ∧ ∃ transitive sources field_sets packages,
                get_transitive_targets G [address] = Ok transitive
                ∧ get_source_files G (all_dependencies transitive) = Ok sources
                ∧ get_package_field_sets G (all_dependencies transitive) = Ok field_sets
                ∧ MultiGet (get_built_package G) field_sets = Ok packages
                ∧ get_merge_digests E (sources :: EMPTY_DIGEST E :: packages)
                  = Ok (ResolvedExecutionDependencies.digest resolved)) as Hchain.
  { intros resolved.
    destruct (get_transitive_targets G [address]) as [transitive|] eqn:Ht; [|done]. simpl.
    destruct (get_source_files G _) as [sources|] eqn:Hs; [|done]. simpl.
    destruct (get_package_field_sets G _) as [field_sets|] eqn:Hf; [|done]. simpl.
    destruct (MultiGet _ field_sets) as [packages|] eqn:Hp; [|done]. simpl.
    destruct (get_merge_digests E _) as [d|] eqn:Hd; [|done]. simpl.
    intros [= <-]. split; [done|].
    by exists transitive, sources, field_sets, packages. }
  rewrite Hmerge, Hempty.
  destruct dependencies as [d|]; simpl.
  - destruct (warn_or_error G "2.17.0.dev0" deprecation_entity deprecation_hint) as [[]|e]; simpl; [|done].
    split; [done|]. exact Hchain.
  - split; [done|]. exact Hchain.
Qed.

Lemma fallback_resolves_the_target_itself_witness :
  resolve_execution_environment sample_graph ambient_engine sample_bash
    (execution_request sample_address None (Some [":lib"]))
  = resolve_execution_environment sample_graph (sample_engine fmt_spec 0) sample_bash
      (execution_request sample_address None (Some [":lib"])).
Proof.
  apply (fallback_resolves_the_target_itself sample_graph (sample_engine fmt_spec 0)
           ambient_engine sample_bash sample_address (Some [":lib"]));
    reflexivity.
Defined.

(** With an explicit [execution_dependencies] list, the address strings of
    the list are resolved first, in their order, and a failure to resolve
    them is the failure of the whole resolution: nothing is returned. When
    the resolution returns, a [RunnableDependencies] value is always
    returned with it, also for a list without any [runnable], and the
    digests merged are the sources, the digest of the runnables and the
    built packages, in that order. *)
Theorem explicit_list_resolution (G : GraphEngine) (E : Engine) (bash : BashBinary)
    (address : Address) (raw : list (string + runnable.t))
    (dependencies : option (list string)) :
  (∀ e,
      get_addresses E (strings_of raw) address (origin_of G address) = Raise e →
      resolve_execution_environment G E bash
        (execution_request address (Some raw) dependencies) = Raise e)
  ∧ ∀ resolved,
      resolve_execution_environment G E bash
        (execution_request address (Some raw) dependencies) = Ok resolved →
      ∃ addresses runnables_digest rd transitive sources field_sets packages,
        get_addresses E (strings_of raw) address (origin_of G address) = Ok addresses
        ∧ _resolve_runnable_dependencies E bash (runnables_of raw) address
            (origin_of G address) = Ok (runnables_digest, rd)
        ∧ ResolvedExecutionDependencies.runnable_dependencies resolved = Some rd
        ∧ get_transitive_targets G addresses = Ok transitive
        ∧ get_source_files G (all_dependencies transitive) = Ok sources
        ∧ get_package_field_sets G (all_dependencies transitive) = Ok field_sets
        ∧ MultiGet (get_built_package G) field_sets = Ok packages
        ∧ get_merge_digests E (sources :: runnables_digest :: packages)
          = Ok (ResolvedExecutionDependencies.digest resolved).
Proof.
  rewrite resolve_execution_environment_unfold. unfold execution_roots. simpl.
  fold (origin_of G address). split.
  - intros e ->. done.
  - intros resolved.
    destruct (get_addresses E _ _ _) as [addresses|] eqn:Ha; [|done]. simpl.
    destruct (_resolve_runnable_dependencies E bash _ _ _) as [[runnables_digest rd]|]
      eqn:Hr; [|done]. simpl.
    destruct (get_transitive_targets G addresses) as [transitive|] eqn:Ht; [|done]. simpl.
    destruct (get_source_files G _) as [sources|] eqn:Hs; [|done]. simpl.
    destruct (get_package_field_sets G _) as [field_sets|] eqn:Hf; [|done]. simpl.
    destruct (MultiGet _ field_sets) as [packages|] eqn:Hp; [|done]. simpl.
    destruct (get_merge_digests E _) as [d|] eqn:Hd; [|done]. simpl.
    intros [= <-].
    by exists addresses, runnables_digest, rd, transitive, sources, field_sets, packages.
Qed.

(** ** Default Scala plugins *)

Lemma split_char_length (c : ascii) (s : string) :
  length (Py.split_char c s) = S (count_char c s).
Proof.
  induction s as [|a s IH]; simpl; [done|].
  destruct (Ascii.eqb a c); simpl; [by rewrite IH|].
  destruct (Py.split_char c s); simpl in *; lia.
Qed.

Lemma lstrip_first (s : string) (c : ascii) :
  first_char (Scalac.lstrip s) = Some c → Scalac.isspace c = false.
Proof.
  induction s as [|a s IH]; simpl; [done|].
  destruct (Scalac.isspace a) eqn:Ha; [done|]. simpl. by intros [= <-].
Qed.

Lemma rstrip_first (s : string) (c : ascii) :
  first_char (Scalac.rstrip s) = Some c → first_char s = Some c.
Proof.
  destruct s as [|a s]; simpl; [done|].
  destruct (Scalac.rstrip s); [by destruct (Scalac.isspace a)|done].
Qed.

Lemma rstrip_last (s : string) (c : ascii) :
  last_char (Scalac.rstrip s) = Some c → Scalac.isspace c = false.
Proof.
  induction s as [|a s IH]; simpl; [done|].
  destruct (Scalac.rstrip s) as [|b kept] eqn:Hk.
  - destruct (Scalac.isspace a) eqn:Ha; [done|]. simpl. by intros [= <-].
  - simpl. exact IH.
Qed.

Lemma strip_trimmed (s : string) : trimmed (Scalac.strip s).
Proof.
  split; intros c Hc.
  - apply rstrip_first in Hc. by eapply lstrip_first.
  - by eapply rstrip_last.
Qed.

Lemma rstrip_id (s : string) :
  (∀ c, last_char s = Some c → Scalac.isspace c = false) → Scalac.rstrip s = s.
Proof.
  induction s as [|a s IH]; [done|]. intros Hlast. simpl.
  destruct s as [|b s].
  - simpl. by rewrite (Hlast a).
  - rewrite IH by exact Hlast. done.
Qed.

Lemma strip_id (s : string) : trimmed s → Scalac.strip s = s.
Proof.
  intros [Hfirst Hlast]. unfold Scalac.strip.
  assert (Scalac.lstrip s = s) as ->.
  { destruct s as [|a s]; [done|]. simpl. by rewrite (Hfirst a). }
  by apply rstrip_id.
Qed.

(** [parsed_default_plugins] keeps the resolve names, and for each resolve
    gives one plugin name per comma-separated piece of its value, each
    without white space at either end: an empty value gives one empty
    plugin name, not an empty list. *)
Theorem parsed_default_plugins_names (default_plugins : gmap string string) :
  dom (Scalac.parsed_default_plugins default_plugins) = dom default_plugins
  ∧ (∀ resolve value,
       default_plugins !! resolve = Some value →
       ∃ names,
         Scalac.parsed_default_plugins default_plugins !! resolve = Some names
         ∧ length names = S (count_char ","%char value)
         ∧ Forall trimmed names)
  ∧ Scalac.plugin_names "" = [""].
Proof.
  split; [apply dom_fmap_L|]. split; [|done].
  intros resolve value Hl. exists (Scalac.plugin_names value).
  unfold Scalac.parsed_default_plugins. rewrite lookup_fmap, Hl.
  split; [done|]. unfold Scalac.plugin_names. split.
  - by rewrite length_map, split_char_length.
  - apply Forall_fmap, Forall_true. intros s. apply strip_trimmed.
Qed.

Lemma split_without (c : ascii) (s : string) :
  count_char c s = 0 → Py.split_char c s = [s].
Proof.
  induction s as [|a s IH]; simpl; [done|].
  destruct (Ascii.eqb a c); [done|]. simpl. intros Hs. by rewrite IH.
Qed.

Lemma split_app_separator (c : ascii) (a b : string) :
  count_char c a = 0 →
  Py.split_char c (a +:+ String c b) = a :: Py.split_char c b.
Proof.
  induction a as [|x a IH].
  - intros _. rewrite app_empty. simpl. by rewrite Ascii.eqb_refl.
  - rewrite app_cons. simpl.
    destruct (Ascii.eqb x c); [done|]. simpl. intros Ha. by rewrite IH.
Qed.

Lemma split_join (c : ascii) (first : string) (others : list string) :
  Forall (λ n, count_char c n = 0) (first :: others) →
  Py.split_char c (Py.join (String c "") (first :: others)) = first :: others.
Proof.
  revert first. induction others as [|second others IH]; intros first Hall.
  - apply Forall_cons in Hall as [Hfirst _]. by apply split_without.
  - apply Forall_cons in Hall as [Hfirst Hall].
    change (Py.join (String c "") (first :: second :: others))
      with (first +:+ String c (Py.join (String c "") (second :: others))).
    rewrite split_app_separator by done. by rewrite IH.
Qed.

(** Round trip: plugin names that have no comma and no white space at
    either end, joined with commas, are parsed back into the same names. A
    list without names is the exception: it is written as the empty value,
    which is parsed as one empty name. *)
Theorem plugin_names_round_trip (names : list string) :
  names ≠ [] →
  Forall (λ n, count_char ","%char n = 0 ∧ trimmed n) names →
  Scalac.plugin_names (Py.join "," names) = names.
Proof.
  intros Hne Hall. destruct names as [|first others]; [done|].
  unfold Scalac.plugin_names.
  rewrite (split_join ","%char).
  - apply list_eq. intros i. rewrite list_lookup_fmap.
    destruct ((first :: others) !! i) as [n|] eqn:Hi; [|done]. simpl. f_equal.
    apply strip_id. by eapply (Forall_lookup_1 _ _ _ _ Hall Hi).
  - eapply Forall_impl; [exact Hall|]. by intros n [? _].
Qed.

Lemma plugin_names_round_trip_witness :
  Scalac.plugin_names (Py.join "," ["kind-projector"; "better monadic for"])
  = ["kind-projector"; "better monadic for"].
Proof.
  apply (plugin_names_round_trip ["kind-projector"; "better monadic for"]).
  - intros [=].
  - repeat constructor; simpl; intros c [= <-]; reflexivity.
Defined.

(** ** The Python options request of the build server *)

Section bsp_facts.
Context {BuildTargetIdentifier : Type}.
Context (identifier_from_json_dict : Bsp.json → result Bsp.exn BuildTargetIdentifier).
Context (identifier_to_json_dict : BuildTargetIdentifier → result Bsp.exn Bsp.json).

Lemma comprehension_round_trip (ts : list BuildTargetIdentifier) :
  Forall (λ t, ∃ j, identifier_to_json_dict t = Ok j ∧ identifier_from_json_dict j = Ok t) ts →
  ∃ js, Bsp.comprehension identifier_to_json_dict ts = Ok js
        ∧ Bsp.comprehension identifier_from_json_dict js = Ok ts.
Proof.
  induction 1 as [|t ts (j & Hto & Hfrom) _ (js & Hjs & Hback)].
  - by exists [].
  - exists (j :: js). simpl. by rewrite Hto, Hjs, Hfrom, Hback.
Qed.

(** Round trip of the request parameters: when every target identifier is
    written to a dictionary from which it is read back, the parameters are
    written to a dictionary from which [from_json_dict] reads the same
    parameters. *)
Theorem python_options_params_round_trip
    (params : Bsp.PythonOptionsParams (BuildTargetIdentifier := BuildTargetIdentifier)) :
  Forall (λ t, ∃ j, identifier_to_json_dict t = Ok j ∧ identifier_from_json_dict j = Ok t)
    (Bsp.targets params) →
  ∃ d,
    Bsp.params_to_json_dict identifier_to_json_dict params = Ok d
    ∧ Bsp.params_from_json_dict identifier_from_json_dict d = Ok params.
Proof.
  intros (js & Hjs & Hback)%comprehension_round_trip.
  exists (Bsp.JDict [("targets", Bsp.JList js)]).
  unfold Bsp.params_to_json_dict, Bsp.params_from_json_dict.
  rewrite Hjs. simpl. rewrite Hback. simpl. by destruct params.
Qed.

Lemma items_not_serialized (items : list (Bsp.PythonOptionsItem (BuildTargetIdentifier := BuildTargetIdentifier))) :
  items ≠ [] →
  ∃ e, Bsp.comprehension (Bsp.item_to_json_dict identifier_to_json_dict) items = Raise e.
Proof.
  destruct items as [|item rest]; [done|]. intros _. simpl.
  unfold Bsp.item_to_json_dict at 1.
  destruct (identifier_to_json_dict (Bsp.target item)) as [j|e]; simpl; by eexists.
Qed.

(** The answer to a Python options request has one item per target of the
    request, in order, each without link options; and that answer can be
    written to a dictionary only when the request names no target: the
    item's [to_json_dict] reads the attribute [options], which the item
    does not have, so for the first target it raises [AttributeError]
    unless writing the target identifier has raised already. *)
Theorem python_options_result_is_not_serialized
    (request : Bsp.PythonOptionsParams (BuildTargetIdentifier := BuildTargetIdentifier)) :
  map Bsp.target (Bsp.items (Bsp.bsp_python_options_request request)) = Bsp.targets request
  ∧ Forall (λ item, Bsp.linkopts item = [])
      (Bsp.items (Bsp.bsp_python_options_request request))
  ∧ (is_ok (Bsp.result_to_json_dict identifier_to_json_dict
              (Bsp.bsp_python_options_request request)) = true
     ↔ Bsp.targets request = [])
  ∧ (∀ t rest j,
       Bsp.targets request = t :: rest →
       identifier_to_json_dict t = Ok j →
       Bsp.result_to_json_dict identifier_to_json_dict
         (Bsp.bsp_python_options_request request)
       = Raise (Bsp.AttributeError "options")).
Proof.
  destruct request as [ts]. simpl.
  split; [by rewrite map_map, map_id|].
  split; [apply Forall_fmap; by apply Forall_true|].
  split.
  - unfold Bsp.result_to_json_dict, Bsp.bsp_python_options_request. simpl. split.
    + destruct ts as [|t rest]; [done|].
      destruct (items_not_serialized (map Bsp.handle_bsp_python_options_request (t :: rest)))
        as [e ->]; done.
    + by intros ->.
  - intros t rest j -> Hj.
    unfold Bsp.result_to_json_dict, Bsp.bsp_python_options_request. simpl.
    unfold Bsp.item_to_json_dict at 1. simpl. by rewrite Hj.
Qed.

End bsp_facts.

Lemma python_options_params_round_trip_witness :
  ∃ d,
    Bsp.params_to_json_dict Bsp.uri_to_json_dict
      {| Bsp.targets := ["pants:src/app:app"; "pants:src/lib"] |} = Ok d
    ∧ Bsp.params_from_json_dict Bsp.uri_from_json_dict d
      = Ok {| Bsp.targets := ["pants:src/app:app"; "pants:src/lib"] |}.
Proof.
  apply (python_options_params_round_trip Bsp.uri_from_json_dict Bsp.uri_to_json_dict
           {| Bsp.targets := ["pants:src/app:app"; "pants:src/lib"] |}).
  repeat constructor; eexists; split; reflexivity.
Defined.
